(** * scrape_molduras: a shallow embedding of scripts/scrape_molduras.py

    The script crawls a product category, extracts per-product fields
    (identifier, title, width in cm, colour and style guesses, image URL),
    downloads the image and aggregates the records in a dictionary keyed by
    identifier.

    Python [str] values are sequences of Unicode code points; they are
    modelled as [list N].  Library functions whose behaviour is fixed by
    tables outside the script ([str.upper], [str.lower], [urljoin],
    [urlparse]) are operations of the class [PyLib]; the network and the
    file system are oracles carried by the [world] state. *)

From Stdlib Require Import String Ascii.
From Stdlib Require Import List NArith ZArith QArith Bool Lia Arith.
From Stdlib Require Finite.
From Stdlib Require Import Sorted.
Import ListNotations.

Set Implicit Arguments.
Local Open Scope list_scope.

(** ** Strings *)

Definition pystr := list N.

(** An ASCII literal of the script as a sequence of code points. *)
Definition lit (s : string) : pystr := map N_of_ascii (list_ascii_of_string s).

(** Python truthiness of a [str] and of a [str]-or-[None] value. *)
Definition nonempty (s : pystr) : bool :=
  match s with [] => false | _ :: _ => true end.

Definition truthy (o : option pystr) : bool :=
  match o with Some s => nonempty s | None => false end.

(** [a or b] on [str]-or-[None] operands. *)
Definition py_or (a b : option pystr) : option pystr :=
  if truthy a then a else b.

(** [a or "literal"]: the right operand is a string, so is the result
    whenever the left one is falsy. *)
Definition or_str (a : option pystr) (b : pystr) : pystr :=
  match a with
  | Some s => if nonempty s then s else b
  | None => b
  end.

(** ** Unicode classes used by [str.strip], [\s] and [\d]

    [Py_UNICODE_ISSPACE]: the code points for which [str.isspace] holds. *)
Definition space_points : list N :=
  [9; 10; 11; 12; 13; 28; 29; 30; 31; 32; 133; 160; 5760;
   8192; 8193; 8194; 8195; 8196; 8197; 8198; 8199; 8200; 8201; 8202;
   8232; 8233; 8239; 8287; 12288]%N.

Definition isspace (c : N) : bool := existsb (N.eqb c) space_points.

(** Unicode category Nd comes in runs of ten consecutive code points, the
    digits 0 to 9 of a script; the table lists the code point of each
    zero (Unicode 14). *)
Definition decimal_bases : list N :=
  [48; 1632; 1776; 1984; 2406; 2534; 2662; 2790; 2918; 3046; 3174; 3302;
   3430; 3558; 3664; 3792; 3872; 4160; 4240; 6112; 6160; 6470; 6608; 6784;
   6800; 6992; 7088; 7232; 7248; 42528; 43216; 43264; 43472; 43504; 43600;
   44016; 65296; 66720; 68912; 69734; 69872; 69942; 70096; 70384; 70736;
   70864; 71248; 71360; 71472; 71904; 72016; 72784; 73040; 73120; 92768;
   92864; 93008; 120782; 120792; 120802; 120812; 120822; 123200; 123632;
   125264; 130032]%N.

(** [Py_UNICODE_TODECIMAL]: the value of a decimal digit, [None] for any
    other code point. *)
Definition decimal_digit (c : N) : option N :=
  match find (fun b => (b <=? c)%N && (c <? b + 10)%N) decimal_bases with
  | Some b => Some (c - b)%N
  | None => None
  end.

Definition isdecimal (c : N) : bool :=
  match decimal_digit c with Some _ => true | None => false end.

(** ** String methods *)

Fixpoint dropwhile (p : N -> bool) (s : pystr) : pystr :=
  match s with
  | c :: s' => if p c then dropwhile p s' else s
  | [] => []
  end.

Definition lstrip (p : N -> bool) (s : pystr) : pystr := dropwhile p s.
Definition rstrip (p : N -> bool) (s : pystr) : pystr :=
  rev (dropwhile p (rev s)).

(** [s.strip()] *)
Definition str_strip (s : pystr) : pystr := rstrip isspace (lstrip isspace s).

(** [s.strip(chars)] for a one-character [chars]. *)
Definition strip_char (c : N) (s : pystr) : pystr :=
  rstrip (N.eqb c) (lstrip (N.eqb c) s).

(** [s.split(sep)] for a one-character separator: never the empty list. *)
Fixpoint split_char (sep : N) (s : pystr) : list pystr :=
  match s with
  | [] => [[]]
  | c :: s' =>
      if (c =? sep)%N then [] :: split_char sep s'
      else match split_char sep s' with
           | w :: ws => (c :: w) :: ws
           | [] => [[c]]
           end
  end.

(** [s.replace(a, b)] for one-character [a] and [b]. *)
Definition replace_char (a b : N) (s : pystr) : pystr :=
  map (fun c => if (c =? a)%N then b else c) s.

Fixpoint startswith (k s : pystr) : bool :=
  match k, s with
  | [], _ => true
  | a :: k', b :: s' => (a =? b)%N && startswith k' s'
  | _ :: _, [] => false
  end.

(** [k in t] on strings. *)
Fixpoint contains (k t : pystr) : bool :=
  startswith k t ||
  match t with
  | [] => false
  | _ :: t' => contains k t'
  end.

(** ** Regular expressions

    The fragment of [re] syntax of the two patterns of the script:
    character classes, concatenation, a greedy optional group and greedy
    repetition of a class.  [rmatch] is a backtracking matcher in
    continuation-passing style: alternatives are tried in the priority
    order of [re] (greedy first), and the first one whose continuation
    succeeds is the match. *)

Inductive regex : Type :=
| Cls (p : N -> bool)
| Cat (r1 r2 : regex)
| Opt (r : regex)
| Star (p : N -> bool)
| Plus (p : N -> bool).

Section Matcher.
Variable R : Type.

Fixpoint star_k (p : N -> bool) (s : pystr) (k : pystr -> option R)
  : option R :=
  match s with
  | c :: s' =>
      if p c then
        match star_k p s' k with
        | Some x => Some x
        | None => k s
        end
      else k s
  | [] => k s
  end.

Fixpoint rmatch (r : regex) (s : pystr) (k : pystr -> option R)
  : option R :=
  match r with
  | Cls p =>
      match s with
      | c :: s' => if p c then k s' else None
      | [] => None
      end
  | Cat r1 r2 => rmatch r1 s (fun s1 => rmatch r2 s1 k)
  | Opt r1 =>
      match rmatch r1 s k with
      | Some x => Some x
      | None => k s
      end
  | Star p => star_k p s k
  | Plus p =>
      match s with
      | c :: s' => if p c then star_k p s' k else None
      | [] => None
      end
  end.
End Matcher.

(** A pattern [(grp)rest] whose only capturing group is a prefix. *)
Record pattern : Type := { grp : regex; rest : regex }.

(** [re.match] at the start of [s]: the text of group 1. *)
Definition match_group1 (pt : pattern) (s : pystr) : option pystr :=
  match rmatch (grp pt) s
          (fun s1 => rmatch (rest pt) s1 (fun _ => Some s1)) with
  | Some s1 => Some (firstn (length s - length s1) s)
  | None => None
  end.

(** [re.search(pt, s)]: the leftmost start at which the pattern matches;
    the result is [m.group(1)]. *)
Fixpoint re_search (pt : pattern) (s : pystr) : option pystr :=
  match match_group1 pt s with
  | Some g => Some g
  | None =>
      match s with
      | [] => None
      | _ :: s' => re_search pt s'
      end
  end.

(** [re.sub(r, repl, s)]: every leftmost non-overlapping match is replaced;
    an empty match is replaced too and the scan moves one character on.
    The budget counts scan steps; [re_sub] gives one per position. *)
Fixpoint re_sub_loop (fuel : nat) (r : regex) (repl s : pystr) : pystr :=
  match fuel with
  | O => s
  | S n =>
      let copy :=
        match s with
        | [] => []
        | c :: s' => c :: re_sub_loop n r repl s'
        end in
      match rmatch r s (fun s1 => Some s1) with
      | Some s1 =>
          if (length s1 <? length s)%nat
          then repl ++ re_sub_loop n r repl s1
          else repl ++ copy
      | None => copy
      end
  end.

Definition re_sub (r : regex) (repl s : pystr) : pystr :=
  re_sub_loop (S (length s)) r repl s.

(** Character classes of the two patterns. *)
Definition is_char (a : string) (c : N) : bool :=
  existsb (N.eqb c) (lit a).

(** A literal letter under [re.I]: the code points whose simple lower
    case is the letter are the letter and its ASCII capital. *)
Definition ci (lower upper : N) (c : N) : bool :=
  (c =? lower)%N || (c =? upper)%N.

Definition in_range (lo hi c : N) : bool := (lo <=? c)%N && (c <=? hi)%N.

(** [[A-Z0-9_-]] *)
Definition id_char (c : N) : bool :=
  in_range 65 90 c || in_range 48 57 c || (c =? 95)%N || (c =? 45)%N.

(** [(\d+(?:[.,]\d+)?)\s*cm] with [re.I] *)
Definition width_re : pattern :=
  {| grp := Cat (Plus isdecimal)
                (Opt (Cat (Cls (is_char ".,")) (Plus isdecimal)));
     rest := Cat (Star isspace) (Cat (Cls (ci 99 67)) (Cls (ci 109 77))) |}.

(** [[^A-Z0-9_-]+] *)
Definition junk_re : regex := Plus (fun c => negb (id_char c)).

(** ** float

    [float(v)] on an unsigned decimal literal [ddd] or [ddd.ddd] (digits of
    any script): the only strings group 1 of [width_re] can hold.  The
    result is the rational the literal denotes; Python rounds it to the
    nearest binary64.  Outside this fragment the model answers [None],
    the [ValueError] of the script's [except] branch. *)
Fixpoint digits_value (acc : N) (s : pystr) : option N :=
  match s with
  | [] => Some acc
  | c :: s' =>
      match decimal_digit c with
      | Some d => digits_value (10 * acc + d)%N s'
      | None => None
      end
  end.

Definition py_float (v : pystr) : option Q :=
  match split_char 46 v with
  | [i] =>
      if nonempty i then
        match digits_value 0 i with
        | Some n => Some (Z.of_N n # 1)
        | None => None
        end
      else None
  | [i; f] =>
      if nonempty i && nonempty f then
        match digits_value 0 (i ++ f) with
        | Some n => Some (Z.of_N n # Pos.pow 10 (Pos.of_nat (length f)))
        | None => None
        end
      else None
  | _ => None
  end.

(** ** The world: network, file system, exceptions *)

(** What the selectors of the script find in a parsed page.  An element
    that is absent is [None]; an attribute that is absent is [None]. *)
Record Soup : Type := {
  (** [h1.product_title, h1.entry-title]: its [get_text(" ", strip=True)] *)
  title_el : option pystr;
  (** [span.sku, .sku, .product_meta .sku]: its [get_text(strip=True)] *)
  sku_el : option pystr;
  (** [meta[property="og:image"]]: its [content] *)
  og_image : option (option pystr);
  (** [.woocommerce-product-gallery__image img]: [data-large_image], [src] *)
  gallery_img : option (option pystr * option pystr);
  (** [img.wp-post-image]: its [src] *)
  wp_post_image : option (option pystr);
  (** [ul.products li.product a.woocommerce-LoopProduct-link]: each [href] *)
  loop_links : list (option pystr);
  (** [a[href*="/producto/"]]: each [href] *)
  producto_links : list (option pystr);
  (** [a.next, a[rel="next"]]: its [href] *)
  next_link : option (option pystr)
}.

(** The answer to [requests.get]: no answer at all, or a response with
    its status, the page [BS(r.text, "lxml")] builds and [r.content]. *)
Inductive response : Type :=
| NoAnswer
| Response (status_ok : bool) (html : Soup) (content : list N).

Inductive value : Type :=
| VNone
| VStr (s : pystr)
| VFloat (x : Q).

(** A [rec] of [main]: a dictionary with string keys, in insertion order. *)
Definition record := list (string * value).

Inductive file_content : Type :=
| Bytes (b : list N)
| Json (out : list record).

Record world : Type := {
  (** the answer to the [n]-th request of the run, sent to a URL *)
  net : nat -> pystr -> response;
  (** whether [open(path, "wb")] and the write succeed *)
  disk : pystr -> bool;
  (** URLs requested so far, latest first *)
  requests : list pystr;
  (** files written so far, latest first *)
  files : list (pystr * file_content)
}.

(** Exceptions, all subclasses of [Exception]. *)
Inductive exn : Type := RequestException | HTTPError | OSError.

(** [Timeout]: the loop budget of the model ran out. *)
Inductive result (A : Type) : Type :=
| Ret (a : A)
| Raise (e : exn)
| Timeout.
Arguments Raise {A} e.
Arguments Timeout {A}.

Definition M (A : Type) : Type := world -> result A * world.

Definition ret {A} (a : A) : M A := fun w => (Ret a, w).
Definition raise {A} (e : exn) : M A := fun w => (Raise e, w).
Definition bind {A B} (m : M A) (f : A -> M B) : M B :=
  fun w =>
    match m w with
    | (Ret a, w') => f a w'
    | (Raise e, w') => (Raise e, w')
    | (Timeout, w') => (Timeout, w')
    end.

(** [try: m except Exception as e: h e] *)
Definition try_except {A} (m : M A) (h : exn -> M A) : M A :=
  fun w =>
    match m w with
    | (Raise e, w') => h e w'
    | r => r
    end.

Notation "x <- m ;; k" := (bind m (fun x => k))
  (at level 61, m at next level, right associativity).

Definition requests_get (url : pystr) : M response :=
  fun w =>
    let w' := {| net := net w; disk := disk w;
                 requests := url :: requests w; files := files w |} in
    match net w (length (requests w)) url with
    | NoAnswer => (Raise RequestException, w')
    | r => (Ret r, w')
    end.

Definition raise_for_status (r : response) : M unit :=
  match r with
  | Response true _ _ => ret tt
  | _ => raise HTTPError
  end.

Definition r_html (r : response) : Soup :=
  match r with
  | Response _ h _ => h
  | NoAnswer =>
      {| title_el := None; sku_el := None; og_image := None;
         gallery_img := None; wp_post_image := None; loop_links := [];
         producto_links := []; next_link := None |}
  end.

Definition r_content (r : response) : list N :=
  match r with Response _ _ c => c | NoAnswer => [] end.

(** [with open(path, "wb") as f: f.write(content)] and the like *)
Definition write_file (path : pystr) (c : file_content) : M unit :=
  fun w =>
    if disk w path
    then (Ret tt, {| net := net w; disk := disk w; requests := requests w;
                     files := (path, c) :: files w |})
    else (Raise OSError, w).

(** ** Library operations outside the script *)

Class PyLib : Type := {
  (** [str.upper] and [str.lower], Unicode case mappings *)
  str_upper : pystr -> pystr;
  str_lower : pystr -> pystr;
  (** [urllib.parse.urljoin(base, url)], on the references it accepts *)
  urljoin : pystr -> pystr -> pystr;
  (** [urllib.parse.urlparse(url).path] *)
  urlparse_path : pystr -> pystr
}.

(** ASCII case mapping: an instance of the case operations that agrees
    with Python on strings whose non-ASCII characters are caseless or
    already in the target case. *)
Definition ascii_upper (s : pystr) : pystr :=
  map (fun c => if in_range 97 122 c then (c - 32)%N else c) s.
Definition ascii_lower (s : pystr) : pystr :=
  map (fun c => if in_range 65 90 c then (c + 32)%N else c) s.

Section Script.
Context {L : PyLib}.

Definition BASE : pystr := lit "https://www.marcosymarcos.mx/".
Definition OUT_DIR : pystr := lit "img/molduras".

Definition slug_from_url (url : pystr) : pystr :=
  let path := split_char 47 (strip_char 47 (urlparse_path url)) in
  replace_char 45 95 (str_upper (or_str (Some (last path [])) (lit "producto"))).

Definition clean_id (text : option pystr) : option pystr :=
  let text := str_upper (str_strip (or_str text [])) in
  let text := re_sub junk_re [] text in
  if nonempty text then Some text else None.

Definition parse_width_cm (text : option pystr) : option Q :=
  if negb (truthy text) then None else
  match re_search width_re (or_str text []) with
  | None => None
  | Some g =>
      let v := replace_char 44 46 g in
      match py_float v with
      | Some x => Some x
      | None => None
      end
  end.

Definition mapc : list (pystr * pystr) :=
  [ (lit "negro", lit "#111111");
    (lit "blanco", lit "#f5f5f5");
    (lit "nogal", lit "#6b3f21");
    (lit "caoba", lit "#7a3b1f");
    (lit "chocolate", lit "#4b2b1a");
    (lit "natural", lit "#c9b18c");
    (lit "maple", lit "#e0b977");
    (lit "wengue", lit "#3a2a1a");
    (lit "roble", lit "#916c44");
    (lit "azul", lit "#1f3a5a");
    (lit "gris", lit "#777777");
    (lit "plata", lit "#c0c0c0");
    (lit "dorado", lit "#c7a446");
    (lit "oro", lit "#c7a446");
    (lit "bronce", lit "#8c6b3f");
    (lit "marfil", lit "#f0eee6") ].

(** The [for k, v in mapc.items(): ... break] loop: a dictionary is
    iterated in insertion order. *)
Fixpoint scan_mapc (t : pystr) (items : list (pystr * pystr)) (color : pystr)
  : pystr :=
  match items with
  | [] => color
  | (k, v) :: items' => if contains k t then v else scan_mapc t items' color
  end.

Definition metal_words : list pystr :=
  [lit "plata"; lit "dorado"; lit "oro"; lit "bronce"; lit "metal"].

Definition guess_style_and_color (name : option pystr) : pystr * pystr :=
  let t := str_lower (or_str name []) in
  let style := lit "grain" in
  let color := lit "#555555" in
  let color := scan_mapc t mapc color in
  let style :=
    if existsb (fun k => contains k t) metal_words then lit "metal" else style in
  (style, color).


Definition get_soup (url : pystr) : M Soup :=
  r <- requests_get url ;;
  _ <- raise_for_status r ;;
  ret (r_html r).

(** [sorted(seen)]: strings compare by code points. *)
Fixpoint str_leb (a b : pystr) : bool :=
  match a, b with
  | [], _ => true
  | _ :: _, [] => false
  | x :: a', y :: b' => (x <? y)%N || ((x =? y)%N && str_leb a' b')
  end.

Definition str_eqb (a b : pystr) : bool := str_leb a b && str_leb b a.

Definition set_add (x : pystr) (seen : list pystr) : list pystr :=
  if existsb (str_eqb x) seen then seen else x :: seen.

Fixpoint insert_sorted (x : pystr) (l : list pystr) : list pystr :=
  match l with
  | [] => [x]
  | y :: l' => if str_leb x y then x :: l else y :: insert_sorted x l'
  end.

Definition sorted (seen : list pystr) : list pystr :=
  fold_right insert_sorted [] seen.

(** The two [for a in soup.select(...)] loops. *)
Definition add_links (hrefs : list (option pystr)) (seen : list pystr)
  : list pystr :=
  fold_left (fun seen a => set_add (urljoin BASE (or_str a [])) seen)
            hrefs seen.

Fixpoint find_product_links_loop (fuel : nat) (url : pystr)
         (seen : list pystr) : M (list pystr) :=
  match fuel with
  | O => fun w => (Timeout, w)
  | S n =>
      if negb (nonempty url) then ret (sorted seen) else
      soup <- get_soup url ;;
      let seen := add_links (loop_links soup) seen in
      let seen := add_links (producto_links soup) seen in
      match next_link soup with
      | Some href =>
          find_product_links_loop n (urljoin BASE (or_str href [])) seen
      | None => ret (sorted seen)
      end
  end.

Definition find_product_links (fuel : nat) (cat_url : pystr)
  : M (list pystr) :=
  find_product_links_loop fuel cat_url [].

Record product : Type := {
  d_id : option pystr;
  d_name : pystr;
  d_width_cm : option Q;
  d_color : pystr;
  d_style : pystr;
  d_img_url : option pystr
}.

(** Lines 120 to 132 of [extract_product]: the main image. *)
Definition find_img_url (soup : Soup) : option pystr :=
  let img_url : option pystr := None in
  let img_url :=
    match og_image soup with
    | Some content =>
        if truthy content then Some (urljoin BASE (or_str content []))
        else img_url
    | None => img_url
    end in
  let img_url :=
    if negb (truthy img_url) then
      match gallery_img soup with
      | Some (large, src) =>
          if truthy (py_or large src)
          then Some (urljoin BASE (or_str (py_or large src) []))
          else img_url
      | None => img_url
      end
    else img_url in
  let img_url :=
    if negb (truthy img_url) then
      match wp_post_image soup with
      | Some src =>
          if truthy src then Some (urljoin BASE (or_str src []))
          else img_url
      | None => img_url
      end
    else img_url in
  img_url.

Definition extract_product (url : pystr) : M product :=
  soup <- get_soup url ;;
  let title :=
    match title_el soup with
    | Some t => t
    | None => slug_from_url url
    end in
  let sku := clean_id (sku_el soup) in
  let sku := if negb (truthy sku) then clean_id (Some (slug_from_url url))
             else sku in
  let img_url := find_img_url soup in
  let width_cm := parse_width_cm (Some title) in
  let (style, color) := guess_style_and_color (Some title) in
  ret {| d_id := sku; d_name := title; d_width_cm := width_cm;
         d_color := color; d_style := style; d_img_url := img_url |}.

Definition download_image (url : option pystr) (path : pystr) : M bool :=
  if negb (truthy url) then ret false else
  try_except
    (r <- requests_get (or_str url []) ;;
     _ <- raise_for_status r ;;
     _ <- write_file path (Bytes (r_content r)) ;;
     ret true)
    (fun e => ret false).

(** The [products] dictionary: keys in insertion order. *)
Definition products_t := list (pystr * record).

Definition dict_mem (k : pystr) (d : products_t) : bool :=
  existsb (fun kv => str_eqb k (fst kv)) d.

Fixpoint dict_set (k : pystr) (v : record) (d : products_t) : products_t :=
  match d with
  | [] => [(k, v)]
  | (k', v') :: d' =>
      if str_eqb k k' then (k', v) :: d' else (k', v') :: dict_set k v d'
  end.

Definition dict_values (d : products_t) : list record := map snd d.

(** [os.path.join(a, b)] with POSIX separators and a relative [b]. *)
Definition path_join (a b : pystr) : pystr := a ++ lit "/" ++ b.

Definition opt_float (x : option Q) : value :=
  match x with Some q => VFloat q | None => VNone end.

(** The body of the inner [for purl in ...] loop of [main]. *)
Definition process_link (products : products_t) (purl : pystr)
  : M products_t :=
  try_except
    (data <- extract_product purl ;;
     match d_id data with
     | None => ret products
     | Some pid =>
         if negb (nonempty pid) then ret products else
         if dict_mem pid products then ret products else
         let img_path := path_join OUT_DIR (pid ++ lit ".jpg") in
         ok <- download_image (d_img_url data) img_path ;;
         let rec :=
           [ ("id"%string, VStr pid);
             ("name"%string, VStr (d_name data));
             ("width_cm"%string, opt_float (d_width_cm data));
             ("color"%string, VStr (d_color data));
             ("style"%string, VStr (d_style data));
             ("img"%string,
               if ok then VStr (replace_char 92 47 img_path) else VNone) ] in
         ret (dict_set pid rec products)
     end)
    (fun e => ret products).

Fixpoint process_links (products : products_t) (purls : list pystr)
  : M products_t :=
  match purls with
  | [] => ret products
  | purl :: rest =>
      products <- process_link products purl ;;
      process_links products rest
  end.

Definition CATEGORIAS : list pystr :=
  [lit "https://www.marcosymarcos.mx/categoria/molduras/poliestireno/"].

Definition OUT_JSON : pystr := path_join (lit "data") (lit "molduras_scraped.json").

Fixpoint process_categories (fuel : nat) (products : products_t)
         (cats : list pystr) : M products_t :=
  match cats with
  | [] => ret products
  | cat :: cats' =>
      purls <- find_product_links fuel cat ;;
      products <- process_links products purls ;;
      process_categories fuel products cats'
  end.

Definition main (fuel : nat) : M unit :=
  products <- process_categories fuel [] CATEGORIAS ;;
  let out := dict_values products in
  write_file OUT_JSON (Json out).

(** The array last written to [OUT_JSON], if any. *)
Definition json_output (w : world) : option (list record) :=
  match find (fun f => str_eqb OUT_JSON (fst f)) (files w) with
  | Some (_, Json out) => Some out
  | _ => None
  end.

End Script.

(** * Vocabulary of the properties *)

(** Every character of [s] is in the class [p]. *)
Definition all (p : N -> bool) (s : pystr) : Prop :=
  Forall (fun c => p c = true) s.







(** [k] occurs in [t]. *)
Definition is_substring (k t : pystr) : Prop := exists a b, t = a ++ k ++ b.

(** [r[k]] on a record. *)
Fixpoint field (k : string) (r : record) : option value :=
  match r with
  | [] => None
  | (k', v) :: r' => if String.eqb k k' then Some v else field k r'
  end.

(** The world only gains files. *)
Definition files_grow (w w' : world) : Prop :=
  exists extra, files w' = extra ++ files w.

(** The title "Marco Plata Metálico 5 cm"; á is U+00E1. *)
Definition title_plata : pystr :=
  lit "Marco Plata Met" ++ [225%N] ++ lit "lico 5 cm".

Section Vocabulary.
Context {L : PyLib}.

(** The slug in the words of the specification: the last path segment,
    uppercased, with hyphens replaced by underscores. *)
Definition slug_as_specified (url : pystr) : pystr :=
  replace_char 45 95
    (str_upper (last (split_char 47 (strip_char 47 (urlparse_path url))) [])).

(** The fields [extract_product] computes from a fetched page. *)
Definition title_of (url : pystr) (soup : Soup) : pystr :=
  match title_el soup with
  | Some t => t
  | None => slug_from_url url
  end.

Definition sku_of (url : pystr) (soup : Soup) : option pystr :=
  if truthy (clean_id (sku_el soup)) then clean_id (sku_el soup)
  else clean_id (Some (slug_from_url url)).

Definition product_of (url : pystr) (soup : Soup) : product :=
  {| d_id := sku_of url soup;
     d_name := title_of url soup;
     d_width_cm := parse_width_cm (Some (title_of url soup));
     d_color := snd (guess_style_and_color (Some (title_of url soup)));
     d_style := fst (guess_style_and_color (Some (title_of url soup)));
     d_img_url := find_img_url soup |}.

(** The [rec] dictionary [main] builds for a product. *)
Definition rec_of (pid : pystr) (data : product) (img : value) : record :=
  [ ("id"%string, VStr pid);
    ("name"%string, VStr (d_name data));
    ("width_cm"%string, opt_float (d_width_cm data));
    ("color"%string, VStr (d_color data));
    ("style"%string, VStr (d_style data));
    ("img"%string, img) ].

(** [img_path] of [main], and the [img] value of the record. *)
Definition img_path (pid : pystr) : pystr :=
  path_join OUT_DIR (pid ++ lit ".jpg").

Definition img_of (ok : bool) (pid : pystr) : value :=
  if ok then VStr (replace_char 92 47 (img_path pid)) else VNone.

(** An entry of [products]: the record of a product under its
    identifier, with the image path only when the file is on disk. *)
Definition good_record (w : world) (pid : pystr) (r : record) : Prop :=
  exists data img,
    r = rec_of pid data img /\ pid <> [] /\ all id_char pid /\
    (img = VNone \/
     img = VStr (replace_char 92 47 (img_path pid)) /\
     exists c, In (img_path pid, Bytes c) (files w)).

Definition good_products (w : world) (d : products_t) : Prop :=
  NoDup (map fst d) /\ Forall (fun kv => good_record w (fst kv) (snd kv)) d.

(** The three sources of the image URL, each null when the element or
    the attribute is missing. *)
Definition og_content (soup : Soup) : option pystr :=
  match og_image soup with Some content => content | None => None end.

Definition gallery_source (soup : Soup) : option pystr :=
  match gallery_img soup with
  | Some (large, src) => py_or large src
  | None => None
  end.

Definition featured_src (soup : Soup) : option pystr :=
  match wp_post_image soup with Some src => src | None => None end.

(** The first value of a list that is neither null nor empty. *)
Fixpoint first_truthy (l : list (option pystr)) : option pystr :=
  match l with
  | [] => None
  | o :: l' => if truthy o then o else first_truthy l'
  end.

Definition image_choice (soup : Soup) : option pystr :=
  option_map (urljoin BASE)
    (first_truthy [og_content soup; gallery_source soup; featured_src soup]).

End Vocabulary.

(** * A concrete library and a concrete site *)

(** [urljoin] for a reference that is an absolute http URL or a path
    relative to a base that is the root of a site. *)
Definition simple_urljoin (base u : pystr) : pystr :=
  if negb (nonempty u) then base
  else if startswith (lit "http") u then u
  else base ++ dropwhile (N.eqb 47) u.

(** [urlparse(url).path] for a URL [scheme://host/path?query#fragment]. *)
Fixpoint after_scheme (u : pystr) : pystr :=
  match u with
  | [] => []
  | c :: r => if startswith (lit "://") u then skipn 3 u else after_scheme r
  end.

Fixpoint takewhile (p : N -> bool) (s : pystr) : pystr :=
  match s with
  | c :: s' => if p c then c :: takewhile p s' else []
  | [] => []
  end.

Definition simple_url_path (u : pystr) : pystr :=
  let r := if contains (lit "://") u then after_scheme u else u in
  let r := if contains (lit "://") u
           then dropwhile (fun c => negb (c =? 47)%N) r else r in
  takewhile (fun c => negb (is_char "?#" c)) r.

Definition ascii_lib : PyLib :=
  {| str_upper := ascii_upper; str_lower := ascii_lower;
     urljoin := simple_urljoin; urlparse_path := simple_url_path |}.

Definition no_page : Soup :=
  {| title_el := None; sku_el := None; og_image := None;
     gallery_img := None; wp_post_image := None; loop_links := [];
     producto_links := []; next_link := None |}.

Definition cat_page : Soup :=
  {| title_el := None; sku_el := None; og_image := None;
     gallery_img := None; wp_post_image := None;
     loop_links := [Some (lit "producto/b-2/"); Some (lit "producto/a-1/");
                    Some (lit "producto/c-3/")];
     producto_links := [Some (lit "https://www.marcosymarcos.mx/producto/a-1/")];
     next_link := None |}.

Definition page_a : Soup :=
  {| title_el := Some title_plata; sku_el := Some (lit " mp-01 ");
     og_image := Some (Some (lit "img/a.jpg"));
     gallery_img := Some (Some (lit "img/a-large.jpg"), None);
     wp_post_image := None; loop_links := []; producto_links := [];
     next_link := None |}.

Definition page_b : Soup :=
  {| title_el := Some (lit "Moldura Nogal"); sku_el := None;
     og_image := Some None;
     gallery_img := Some (Some [], Some (lit "img/b.jpg"));
     wp_post_image := Some (Some (lit "img/b-thumb.jpg"));
     loop_links := []; producto_links := []; next_link := None |}.

Definition page_c : Soup :=
  {| title_el := Some (lit "Marco Negro 2,5 cm"); sku_el := Some (lit "MP-01");
     og_image := None; gallery_img := None; wp_post_image := None;
     loop_links := []; producto_links := []; next_link := None |}.

Definition url_a : pystr := lit "https://www.marcosymarcos.mx/producto/a-1/".
Definition url_b : pystr := lit "https://www.marcosymarcos.mx/producto/b-2/".
Definition url_c : pystr := lit "https://www.marcosymarcos.mx/producto/c-3/".

(** A site with one category page and three products: the image of the
    first product cannot be fetched, the second has neither SKU nor width,
    the third repeats the SKU of the first.  The home page has no product
    markup. *)
Definition site (n : nat) (url : pystr) : response :=
  if str_eqb url (lit "https://www.marcosymarcos.mx/categoria/molduras/poliestireno/")
  then Response true cat_page []
  else if str_eqb url url_a then Response true page_a []
  else if str_eqb url url_b then Response true page_b []
  else if str_eqb url url_c then Response true page_c []
  else if str_eqb url (lit "https://www.marcosymarcos.mx/img/b.jpg")
  then Response true no_page [255; 216; 255]%N
  else if str_eqb url (lit "https://www.marcosymarcos.mx/")
  then Response true no_page []
  else NoAnswer.

Definition w_sample : world :=
  {| net := site; disk := fun _ => true; requests := []; files := [] |}.

Definition out_sample : list record :=
  Eval vm_compute in
    match json_output (snd (@main ascii_lib 5 w_sample)) with
    | Some out => out
    | None => []
    end.

(** * Further vocabulary *)

(** A colour as the table writes it: [#] and six lowercase hex digits. *)
Definition is_hex_digit (c : N) : bool := in_range 48 57 c || in_range 97 102 c.

Definition is_hex_color (s : pystr) : bool :=
  match s with
  | 35%N :: r => (length r =? 6)%nat && forallb is_hex_digit r
  | _ => false
  end.

(** The order of [sorted] on strings. *)
Definition str_le (a b : pystr) : Prop := str_leb a b = true.

(** Files that are images of products among [keys]. *)
Definition image_files (keys : list pystr) (extra : list (pystr * file_content))
  : Prop :=
  Forall (fun f => exists pid c, f = (img_path pid, Bytes c) /\ In pid keys) extra.

(** Three more sites: one whose every page has a next link, one that
    never answers, and one whose pages hold no anchor at all. *)
Definition loop_page : Soup :=
  {| title_el := None; sku_el := None; og_image := None;
     gallery_img := None; wp_post_image := None;
     loop_links := [Some (lit "producto/a-1/")]; producto_links := [];
     next_link := Some (Some (lit "page/2/")) |}.

Definition endless_site (n : nat) (url : pystr) : response :=
  Response true loop_page [].

Definition w_endless : world :=
  {| net := endless_site; disk := fun _ => true; requests := []; files := [] |}.

Definition w_dead : world :=
  {| net := fun _ _ => NoAnswer; disk := fun _ => true; requests := [];
     files := [] |}.

Definition w_empty : world :=
  {| net := fun _ _ => Response true no_page []; disk := fun _ => true;
     requests := []; files := [] |}.

Definition cat_url0 : pystr :=
  lit "https://www.marcosymarcos.mx/categoria/molduras/poliestireno/".

(** * Properties *)

(** ** Character classes *)

Lemma isspace_In (c : N) : isspace c = true <-> In c space_points.
Proof.
  unfold isspace. rewrite existsb_exists. split.
  - intros (x & Hx & E). apply N.eqb_eq in E. now subst.
  - intros H. exists c. split; [assumption | apply N.eqb_refl].
Qed.




(** ** The matcher against the language of a regular expression *)





(** A greedy repetition with a continuation that always succeeds takes the
    longest run. *)
Lemma star_k_greedy (p : N -> bool) (s : pystr) :
  star_k p s (fun s1 => Some s1) = Some (dropwhile p s).
Proof.
  induction s as [|c s IH]; cbn; [reflexivity |].
  destruct (p c); [now rewrite IH | reflexivity].
Qed.

Lemma dropwhile_length (p : N -> bool) (s : pystr) :
  (length (dropwhile p s) <= length s)%nat.
Proof.
  induction s as [|c s IH]; cbn; [lia |]. destruct (p c); cbn; lia.
Qed.

Lemma filter_dropwhile (p : N -> bool) (s : pystr) :
  filter (fun c => negb (p c)) (dropwhile p s) = filter (fun c => negb (p c)) s.
Proof.
  induction s as [|c s IH]; cbn; [reflexivity |].
  destruct (p c) eqn:Hc; cbn; [assumption | now rewrite Hc].
Qed.

(** [re.sub] of a repeated class by the empty string deletes exactly the
    characters of the class. *)
Lemma re_sub_loop_plus (p : N -> bool) (fuel : nat) :
  forall s : pystr,
    (length s < fuel)%nat ->
    re_sub_loop fuel (Plus p) [] s = filter (fun c => negb (p c)) s.
Proof.
  induction fuel as [|n IH]; intros s Hlen; [lia |].
  destruct s as [|c s]; [reflexivity |].
  cbn [re_sub_loop rmatch]. cbn in Hlen.
  destruct (p c) eqn:Hc.
  - rewrite star_k_greedy.
    pose proof (dropwhile_length p s) as Hd.
    replace (length (dropwhile p s) <? length (c :: s))%nat with true
      by (symmetry; apply Nat.ltb_lt; cbn; lia).
    cbn. rewrite Hc. cbn. rewrite IH by lia. apply filter_dropwhile.
  - cbn. rewrite Hc. cbn. f_equal. apply IH. lia.
Qed.

Lemma re_sub_junk (s : pystr) : re_sub junk_re [] s = filter id_char s.
Proof.
  unfold re_sub, junk_re. rewrite re_sub_loop_plus by lia.
  apply filter_ext. intros c. apply negb_involutive.
Qed.

(** ** The width pattern *)














(** ** [float] on the tokens of the width pattern *)






Lemma nonempty_true (s : pystr) : s <> [] -> nonempty s = true.
Proof. destruct s; [congruence | reflexivity]. Qed.


Lemma parse_width_cm_search (title : pystr) :
  parse_width_cm (Some title) =
  match re_search width_re title with
  | Some g => py_float (replace_char 44 46 g)
  | None => None
  end.
Proof.
  unfold parse_width_cm. destruct title as [|c title]; [reflexivity |].
  cbn [truthy nonempty negb or_str].
  destruct (re_search width_re (c :: title)); [| reflexivity].
  destruct (py_float _); reflexivity.
Qed.


(** ** Strings as dictionary keys *)

Lemma str_leb_refl (a : pystr) : str_leb a a = true.
Proof.
  induction a as [|x a IH]; cbn; [reflexivity |].
  rewrite N.eqb_refl, IH. apply orb_true_r.
Qed.

Lemma str_eqb_eq (a b : pystr) : str_eqb a b = true <-> a = b.
Proof.
  unfold str_eqb. split.
  - revert b. induction a as [|x a IH]; intros [|y b]; cbn; try reflexivity;
      try discriminate.
    intros H. apply andb_true_iff in H. destruct H as [H1 H2].
      apply orb_true_iff in H1, H2.
      rewrite !andb_true_iff, !N.ltb_lt, !N.eqb_eq in H1, H2.
      destruct H1 as [H1 | [-> H1]], H2 as [H2 | [E H2]]; try lia.
      f_equal. apply IH. now rewrite H1, H2.
  - intros ->. now rewrite str_leb_refl.
Qed.

Lemma str_eqb_refl (a : pystr) : str_eqb a a = true.
Proof. now apply str_eqb_eq. Qed.

Lemma dict_mem_In (k : pystr) (d : products_t) :
  dict_mem k d = true <-> In k (map fst d).
Proof.
  unfold dict_mem. rewrite existsb_exists, in_map_iff. split.
  - intros (kv & Hin & E). apply str_eqb_eq in E. eauto.
  - intros (kv & E & Hin). exists kv. split; [assumption |].
    now apply str_eqb_eq.
Qed.

Lemma dict_mem_false (k : pystr) (d : products_t) :
  dict_mem k d = false <-> ~ In k (map fst d).
Proof.
  rewrite <- dict_mem_In. destruct (dict_mem k d); split; congruence.
Qed.

(** Assigning to a key that is absent appends the entry. *)
Lemma dict_set_new (k : pystr) (v : record) (d : products_t) :
  dict_mem k d = false -> dict_set k v d = d ++ [(k, v)].
Proof.
  induction d as [|[k' v'] d IH]; cbn; [reflexivity |].
  intros H. apply orb_false_iff in H. destruct H as [H1 H2].
  rewrite H1. f_equal. exact (IH H2).
Qed.

(** ** The monad *)

Lemma bind_ret_inv (A B : Type) (m : M A) (f : A -> M B) (w w' : world) (b : B) :
  bind m f w = (Ret b, w') ->
  exists a w1, m w = (Ret a, w1) /\ f a w1 = (Ret b, w').
Proof.
  unfold bind. destruct (m w) as [[a | e |] w1]; try discriminate. eauto.
Qed.

Lemma bind_ret (A B : Type) (m : M A) (f : A -> M B) (w w1 : world) (a : A) :
  m w = (Ret a, w1) -> bind m f w = f a w1.
Proof. unfold bind. now intros ->. Qed.

(** ** [download_image] *)

(** Every run of [download_image] returns a Boolean; with a falsy URL it
    returns [False] in an unchanged world; otherwise it sends one request,
    and returns [True] exactly when the answer has a successful status and
    the file is written. *)
Lemma download_image_cases (url : option pystr) (path : pystr) (w : world) :
  exists (ok : bool) (w' : world),
    download_image url path w = (Ret ok, w') /\
    (truthy url = false -> ok = false /\ w' = w) /\
    (truthy url = true ->
     requests w' = or_str url [] :: requests w /\
     (ok = true <->
      (exists h c, net w (length (requests w)) (or_str url []) = Response true h c)
      /\ disk w path = true) /\
     (ok = true ->
      exists c, files w' = (path, Bytes c) :: files w) /\
     (ok = false -> files w' = files w)).
Proof.
  unfold download_image. destruct (truthy url) eqn:Hu; cbn [negb].
  - unfold try_except, bind, requests_get.
    destruct (net w (length (requests w)) (or_str url [])) as [|st h c] eqn:Hn.
    + cbn. exists false. eexists. split; [reflexivity |].
      split; [discriminate |]. intros _. cbn.
      split; [reflexivity |]. split; [| split; [discriminate | reflexivity]].
      split; [discriminate |]. intros [(h & c & Hc) _]. discriminate.
    + destruct st; cbn.
      * unfold write_file. cbn. destruct (disk w path) eqn:Hd; cbn.
        -- exists true. eexists. split; [reflexivity |].
           split; [discriminate |]. intros _. cbn.
           split; [reflexivity |]. split; [| split; [eauto | discriminate]].
           split; [eauto | reflexivity].
        -- exists false. eexists. split; [reflexivity |].
           split; [discriminate |]. intros _. cbn.
           split; [reflexivity |]. split; [| split; [discriminate | reflexivity]].
           split; [discriminate |]. intros [_ H]. discriminate.
      * exists false. eexists. split; [reflexivity |].
        split; [discriminate |]. intros _. cbn.
        split; [reflexivity |]. split; [| split; [discriminate | reflexivity]].
        split; [discriminate |]. intros [(h' & c' & [=]) _].
  - exists false, w. split; [reflexivity |]. split; [auto | discriminate].
Qed.

(** ** Substrings *)

Lemma startswith_spec (k s : pystr) :
  startswith k s = true <-> exists b, s = k ++ b.
Proof.
  revert s. induction k as [|x k IH]; intros s; cbn.
  - split; eauto.
  - destruct s as [|y s].
    + split; [discriminate | intros (b & [=])].
    + rewrite andb_true_iff, N.eqb_eq, IH. split.
      * intros (-> & b & ->). eauto.
      * intros (b & [= -> ->]). eauto.
Qed.

Lemma contains_spec (k t : pystr) : contains k t = true <-> is_substring k t.
Proof.
  unfold is_substring. induction t as [|c t IH]; cbn [contains].
  - rewrite orb_false_r, startswith_spec. split.
    + intros (b & ->). exists [], b. reflexivity.
    + intros (a & b & E). destruct a; [eauto |]. discriminate.
  - rewrite orb_true_iff, startswith_spec, IH. split.
    + intros [(b & ->) | (a & b & ->)].
      * exists [], b. reflexivity.
      * exists (c :: a), b. reflexivity.
    + intros ([|x a] & b & E).
      * left. eauto.
      * right. injection E as -> ->. eauto.
Qed.

Lemma contains_false (k t : pystr) : contains k t = false <-> ~ is_substring k t.
Proof.
  rewrite <- contains_spec. destruct (contains k t); split; congruence.
Qed.

(** ** Files *)

Lemma files_grow_refl (w : world) : files_grow w w.
Proof. now exists []. Qed.

Lemma files_grow_eq (w w' : world) : files w' = files w -> files_grow w w'.
Proof. intros H. now exists []. Qed.

Lemma files_grow_trans (w1 w2 w3 : world) :
  files_grow w1 w2 -> files_grow w2 w3 -> files_grow w1 w3.
Proof.
  intros (a & Ha) (b & Hb). exists (b ++ a). rewrite Hb, Ha. apply app_assoc.
Qed.

(** ** The script *)

Section Properties.
Context {L : PyLib}.

(** *** Identifiers *)

Lemma clean_id_filter (text : option pystr) :
  clean_id text =
  let kept := filter id_char (str_upper (str_strip (or_str text []))) in
  if nonempty kept then Some kept else None.
Proof. unfold clean_id. now rewrite re_sub_junk. Qed.

Lemma clean_id_chars (text : option pystr) (s : pystr) :
  clean_id text = Some s -> s <> [] /\ all id_char s.
Proof.
  rewrite clean_id_filter. cbn zeta.
  destruct (filter id_char _) as [|c k] eqn:E; [discriminate |].
  intros [= <-]. split; [discriminate |].
  rewrite <- E. apply Forall_forall. intros x Hx.
  now apply filter_In in Hx.
Qed.

Lemma clean_id_truthy (text : option pystr) :
  truthy (clean_id text) = false <-> clean_id text = None.
Proof.
  split; [| now intros ->].
  destruct (clean_id text) as [s|] eqn:E; [| reflexivity].
  apply clean_id_chars in E. destruct s; [tauto | discriminate].
Qed.

Lemma get_soup_no_timeout (url : pystr) (w : world) :
  fst (get_soup url w) <> Timeout.
Proof.
  unfold get_soup, bind, requests_get, raise_for_status.
  destruct (net w (length (requests w)) url) as [|[] h c]; cbn; discriminate.
Qed.

Lemma get_soup_files (url : pystr) (w : world) :
  files (snd (get_soup url w)) = files w.
Proof.
  unfold get_soup, bind, requests_get, raise_for_status.
  destruct (net w (length (requests w)) url) as [|[] h c]; reflexivity.
Qed.

Lemma extract_product_unfold (url : pystr) (w : world) :
  extract_product url w =
  match get_soup url w with
  | (Ret soup, w') => (Ret (product_of url soup), w')
  | (Raise e, w') => (Raise e, w')
  | (Timeout, w') => (Timeout, w')
  end.
Proof.
  unfold extract_product, bind.
  destruct (get_soup url w) as [[soup | e |] w']; try reflexivity.
  unfold product_of, title_of, sku_of.
  destruct (guess_style_and_color _) as [style color]. cbn [fst snd ret].
  destruct (truthy (clean_id (sku_el soup))); reflexivity.
Qed.

Lemma extract_product_ret (url : pystr) (w w' : world) (data : product) :
  extract_product url w = (Ret data, w') <->
  exists soup, get_soup url w = (Ret soup, w') /\ data = product_of url soup.
Proof.
  rewrite extract_product_unfold.
  destruct (get_soup url w) as [[soup | e |] w1].
  - split.
    + intros [= <- <-]. eauto.
    + intros (s & [= <- <-] & ->). reflexivity.
  - split; [discriminate | intros (s & [=] & _)].
  - split; [discriminate | intros (s & [=] & _)].
Qed.

Lemma extract_product_no_timeout (url : pystr) (w : world) :
  fst (extract_product url w) <> Timeout.
Proof.
  rewrite extract_product_unfold. pose proof (get_soup_no_timeout url w) as H.
  destruct (get_soup url w) as [[soup | e |] w']; cbn in *;
    (discriminate || congruence).
Qed.

Lemma extract_product_files (url : pystr) (w : world) :
  files (snd (extract_product url w)) = files w.
Proof.
  rewrite extract_product_unfold. pose proof (get_soup_files url w) as H.
  destruct (get_soup url w) as [[soup | e |] w']; exact H.
Qed.

Lemma sku_of_chars (url : pystr) (soup : Soup) (pid : pystr) :
  sku_of url soup = Some pid -> pid <> [] /\ all id_char pid.
Proof.
  unfold sku_of. destruct (truthy (clean_id (sku_el soup)));
    apply clean_id_chars.
Qed.

Unset Implicit Arguments.

(** *** The aggregation loop *)

Lemma process_link_raise (products : products_t) (purl : pystr)
      (w w1 : world) (e : exn) :
  extract_product purl w = (Raise e, w1) ->
  process_link products purl w = (Ret products, w1).
Proof. unfold process_link, try_except, bind. now intros ->. Qed.

Lemma process_link_null (products : products_t) (purl : pystr)
      (w w1 : world) (data : product) :
  extract_product purl w = (Ret data, w1) ->
  truthy (d_id data) = false ->
  process_link products purl w = (Ret products, w1).
Proof.
  unfold process_link, try_except, bind. intros -> H.
  destruct (d_id data) as [pid|]; [| reflexivity].
  cbn in H. rewrite H. reflexivity.
Qed.

Lemma process_link_dup (products : products_t) (purl : pystr)
      (w w1 : world) (data : product) (pid : pystr) :
  extract_product purl w = (Ret data, w1) ->
  d_id data = Some pid ->
  dict_mem pid products = true ->
  process_link products purl w = (Ret products, w1).
Proof.
  unfold process_link, try_except, bind. intros -> -> H.
  rewrite H. destruct (nonempty pid); reflexivity.
Qed.

Lemma process_link_new (products : products_t) (purl : pystr)
      (w w1 w2 : world) (data : product) (pid : pystr) (ok : bool) :
  extract_product purl w = (Ret data, w1) ->
  d_id data = Some pid ->
  nonempty pid = true ->
  dict_mem pid products = false ->
  download_image (d_img_url data) (path_join OUT_DIR (pid ++ lit ".jpg")) w1
    = (Ret ok, w2) ->
  process_link products purl w
    = (Ret (products ++ [(pid, rec_of pid data (img_of ok pid))]), w2).
Proof.
  unfold process_link, try_except, bind. intros -> -> Hne Hmem Hd.
  rewrite Hne, Hmem. cbn [negb]. rewrite Hd. unfold ret.
  rewrite dict_set_new by assumption. reflexivity.
Qed.

Lemma good_record_grow (w w' : world) (pid : pystr) (r : record) :
  files_grow w w' -> good_record w pid r -> good_record w' pid r.
Proof.
  intros (extra & He) (data & img & -> & Hne & Hc & Himg).
  exists data, img. repeat split; try assumption.
  destruct Himg as [-> | (-> & c & Hin)]; [now left | right].
  split; [reflexivity |]. exists c. rewrite He. apply in_or_app. now right.
Qed.

Lemma good_products_grow (w w' : world) (d : products_t) :
  files_grow w w' -> good_products w d -> good_products w' d.
Proof.
  intros Hg [Hnd Hall]. split; [assumption |].
  eapply Forall_impl; [| exact Hall].
  intros kv. now apply good_record_grow.
Qed.

(** One turn of the loop: the dictionary keeps every entry it has, in
    place, and gains at most one entry, under a new key. *)
Lemma process_link_step (products : products_t) (purl : pystr) (w : world) :
  good_products w products ->
  exists products' w' extra,
    process_link products purl w = (Ret products', w') /\
    products' = products ++ extra /\
    good_products w' products' /\ files_grow w w'.
Proof.
  intros Hgood.
  pose proof (extract_product_no_timeout purl w) as Hnt.
  pose proof (extract_product_files purl w) as Hf.
  destruct (extract_product purl w) as [[data | e |] w1] eqn:He;
    cbn in Hnt, Hf; [| | congruence].
  - assert (Hstay : exists products' w' extra,
               (Ret products, w1) = (Ret products', w') /\
               products' = products ++ extra /\
               good_products w' products' /\ files_grow w w').
    { exists products, w1, []. rewrite app_nil_r.
      repeat split; try apply Hgood.
      - eapply Forall_impl; [| apply Hgood].
        intros kv. apply good_record_grow. now apply files_grow_eq.
      - now apply files_grow_eq. }
    destruct (d_id data) as [pid|] eqn:Hid;
      [| rewrite (process_link_null products purl w w1 data He) by (now rewrite Hid);
         exact Hstay].
    destruct (nonempty pid) eqn:Hne;
      [| rewrite (process_link_null products purl w w1 data He)
           by (rewrite Hid; exact Hne); exact Hstay].
    destruct (dict_mem pid products) eqn:Hmem;
      [rewrite (process_link_dup products purl w w1 data pid He Hid Hmem); exact Hstay |].
    destruct (download_image_cases (d_img_url data) (img_path pid) w1)
      as (ok & w2 & Hd & Hfalsy & Htruthy).
    rewrite (process_link_new products purl w w1 w2 data pid ok He Hid Hne Hmem Hd).
    assert (Hg12 : files_grow w1 w2 /\
                   (ok = true -> exists c, In (img_path pid, Bytes c) (files w2))).
    { destruct (truthy (d_img_url data)) eqn:Hu.
      - destruct (Htruthy eq_refl) as (_ & _ & Hok & Hko).
        destruct ok.
        + destruct (Hok eq_refl) as (c & Hc). split.
          * exists [(img_path pid, Bytes c)]. exact Hc.
          * intros _. exists c. rewrite Hc. now left.
        + split; [apply files_grow_eq; auto | discriminate].
      - destruct (Hfalsy eq_refl) as [-> ->].
        split; [apply files_grow_refl | discriminate]. }
    destruct Hg12 as [Hg12 Hfile].
    assert (Hg : files_grow w w2)
      by (eapply files_grow_trans; [apply files_grow_eq; exact Hf | exact Hg12]).
    do 3 eexists. split; [reflexivity |]. split; [reflexivity |].
    split; [| exact Hg].
    destruct Hgood as [Hnd Hall]. split.
    + rewrite map_app. cbn. apply NoDup_app; [assumption | | ].
      * constructor; [intros [] | constructor].
      * intros x Hx [<- | []]. apply dict_mem_false in Hmem. tauto.
    + apply Forall_app. split.
      * eapply Forall_impl; [| exact Hall].
        intros kv. now apply good_record_grow.
      * constructor; [| constructor]. cbn.
        apply extract_product_ret in He. destruct He as (soup & _ & ->).
        cbn in Hid. apply sku_of_chars in Hid. destruct Hid as [Hn Hc].
        exists (product_of purl soup), (img_of ok pid).
        repeat split; try assumption.
        destruct ok; [right | now left].
        split; [reflexivity | auto].
  - rewrite (process_link_raise products purl w w1 e He).
    exists products, w1, []. rewrite app_nil_r.
    split; [reflexivity |]. split; [reflexivity |].
    split; [| now apply files_grow_eq].
    eapply good_products_grow; [| exact Hgood]. now apply files_grow_eq.
Qed.

Lemma process_link_cases (products : products_t) (purl : pystr) (w : world) :
  (exists w', process_link products purl w = (Ret products, w') /\
              files w' = files w) \/
  (exists w1 w2 data pid ok,
      extract_product purl w = (Ret data, w1) /\
      d_id data = Some pid /\ nonempty pid = true /\
      dict_mem pid products = false /\
      download_image (d_img_url data) (img_path pid) w1 = (Ret ok, w2) /\
      process_link products purl w
        = (Ret (products ++ [(pid, rec_of pid data (img_of ok pid))]), w2)).
Proof.
  pose proof (extract_product_no_timeout purl w) as Hnt.
  pose proof (extract_product_files purl w) as Hf.
  destruct (extract_product purl w) as [[data | e |] w1] eqn:He;
    cbn in Hnt, Hf; [| | congruence].
  - destruct (d_id data) as [pid|] eqn:Hid.
    + destruct (nonempty pid) eqn:Hne.
      * destruct (dict_mem pid products) eqn:Hmem.
        -- left. exists w1. split; [| exact Hf].
           exact (process_link_dup products purl w w1 data pid He Hid Hmem).
        -- right.
           destruct (download_image_cases (d_img_url data) (img_path pid) w1)
             as (ok & w2 & Hd & _).
           exists w1, w2, data, pid, ok. repeat split; try assumption.
           exact (process_link_new products purl w w1 w2 data pid ok
                    He Hid Hne Hmem Hd).
      * left. exists w1. split; [| exact Hf].
        apply (process_link_null products purl w w1 data He).
        rewrite Hid. exact Hne.
    + left. exists w1. split; [| exact Hf].
      apply (process_link_null products purl w w1 data He).
      now rewrite Hid.
  - left. exists w1. split; [| exact Hf].
    exact (process_link_raise products purl w w1 e He).
Qed.


Lemma process_links_inv (purls : list pystr) :
  forall (products : products_t) (w : world),
    good_products w products ->
    exists products' w',
      process_links products purls w = (Ret products', w') /\
      good_products w' products' /\ files_grow w w'.
Proof.
  induction purls as [|purl purls IH]; intros products w Hgood;
    cbn [process_links].
  - exists products, w. repeat split; try apply Hgood. apply files_grow_refl.
  - destruct (process_link_step products purl w Hgood)
      as (products1 & w1 & extra & H1 & _ & Hgood1 & Hg1).
    rewrite (@bind_ret _ _ _ _ _ _ _ H1).
    destruct (IH products1 w1 Hgood1) as (products' & w' & H & Hgood' & Hg).
    exists products', w'. repeat split; try apply Hgood'; try assumption.
    eapply files_grow_trans; eassumption.
Qed.

Lemma find_product_links_files (fuel : nat) :
  forall (url : pystr) (seen : list pystr) (w : world),
    files (snd (find_product_links_loop fuel url seen w)) = files w.
Proof.
  induction fuel as [|n IH]; intros url seen w; cbn [find_product_links_loop];
    [reflexivity |].
  destruct (nonempty url); cbn [negb]; [| reflexivity].
  unfold bind. pose proof (get_soup_files url w) as Hf.
  destruct (get_soup url w) as [[soup | e |] w1]; cbn in Hf |- *;
    try exact Hf.
  destruct (next_link soup); [| exact Hf].
  rewrite IH. exact Hf.
Qed.

Lemma process_categories_inv (fuel : nat) (cats : list pystr) :
  forall (products products' : products_t) (w w' : world),
    process_categories fuel products cats w = (Ret products', w') ->
    good_products w products ->
    good_products w' products'.
Proof.
  induction cats as [|cat cats IH]; intros products products' w w';
    cbn [process_categories].
  - intros [= <- <-]. auto.
  - intros H Hgood.
    apply bind_ret_inv in H. destruct H as (purls & w1 & Hl & H).
    assert (Hg1 : files_grow w w1).
    { apply files_grow_eq. unfold find_product_links in Hl.
      pose proof (find_product_links_files fuel cat [] w) as Hf.
      now rewrite Hl in Hf. }
    destruct (process_links_inv purls products w1
                (good_products_grow w w1 products Hg1 Hgood))
      as (products1 & w2 & H2 & Hgood2 & _).
    rewrite (@bind_ret _ _ _ _ _ _ _ H2) in H. eapply IH; eassumption.
Qed.

(** A run of [main] that completes wrote the values of a good dictionary
    to [OUT_JSON]. *)
Lemma main_output (fuel : nat) (w w' : world) :
  main fuel w = (Ret tt, w') ->
  exists products,
    json_output w' = Some (dict_values products) /\ good_products w' products.
Proof.
  unfold main. intros H.
  apply bind_ret_inv in H. destruct H as (products & w1 & Hc & H).
  exists products.
  assert (Hgood : good_products w1 products).
  { eapply process_categories_inv; [exact Hc |].
    split; constructor. }
  unfold write_file in H. destruct (disk w1 OUT_JSON); [| discriminate].
  injection H as <-. split.
  - unfold json_output. cbn [files find fst].
    now rewrite str_eqb_refl.
  - eapply good_products_grow; [| exact Hgood].
    now exists [(OUT_JSON, Json (dict_values products))].
Qed.

Lemma good_record_id (w : world) (pid : pystr) (r : record) :
  good_record w pid r -> field "id" r = Some (VStr pid).
Proof. intros (data & img & -> & _). reflexivity. Qed.

(** *** The image URL *)

Lemma find_img_url_choice (soup : Soup) :
  (forall u, u <> [] -> urljoin BASE u <> []) ->
  find_img_url soup = image_choice soup.
Proof.
  intros Hjoin.
  assert (Hj : forall c s, nonempty (urljoin BASE (c :: s)) = true)
    by (intros c s; apply nonempty_true, Hjoin; discriminate).
  unfold find_img_url, image_choice, og_content, gallery_source, featured_src.
  destruct soup as [t k og gal wpi l1 l2 nx]. cbn [og_image gallery_img wp_post_image].
  destruct og as [[[|c1 s1]|]|]; cbn; rewrite ?Hj; cbn; try reflexivity;
    (destruct gal as [[[[|c2 s2]|] [[|c3 s3]|]]|]; cbn; rewrite ?Hj; cbn;
     try reflexivity;
     destruct wpi as [[[|c4 s4]|]|]; cbn; rewrite ?Hj; reflexivity).
Qed.

(** C1: the image URL of a product page is taken from the first of the
    og:image content, the gallery image (large image, else src) and the
    featured image src that is not empty, in that order, and is null
    when all three are empty. *)
Theorem extract_product_image_order
        (url : pystr) (w w' : world) (data : product) :
  (forall u, u <> [] -> urljoin BASE u <> []) ->
  extract_product url w = (Ret data, w') ->
  exists soup,
    get_soup url w = (Ret soup, w') /\
    d_img_url data =
    option_map (urljoin BASE)
      (first_truthy [og_content soup; gallery_source soup; featured_src soup]) /\
    (truthy (og_content soup) = false ->
     truthy (gallery_source soup) = false ->
     truthy (featured_src soup) = false -> d_img_url data = None).
Proof.
  intros Hjoin H. apply extract_product_ret in H.
  destruct H as (soup & Hs & ->). exists soup. split; [exact Hs |].
  cbn [d_img_url product_of]. rewrite (find_img_url_choice soup Hjoin).
  split; [reflexivity |].
  intros H1 H2 H3. unfold image_choice. cbn. now rewrite H1, H2, H3.
Qed.

(** *** Identifier *)

Lemma id_char_spec (c : N) :
  id_char c = true <->
  (65 <= c <= 90 \/ 48 <= c <= 57 \/ c = 95 \/ c = 45)%N.
Proof.
  unfold id_char, in_range.
  rewrite !orb_true_iff, !andb_true_iff, !N.leb_le, !N.eqb_eq. tauto.
Qed.

(** C3, amended: [clean_id] strips and uppercases the text and keeps
    exactly the characters of A-Z, 0-9, '-' and '_'; an empty result is
    null, and then [extract_product] takes [clean_id] of the slug of the
    URL: the last path segment, or "producto" when that segment is empty,
    uppercased, with '_' for '-'. *)
Theorem clean_id_sanitizes :
  (forall text : option pystr,
      let kept := filter id_char (str_upper (str_strip (or_str text []))) in
      clean_id text = (if nonempty kept then Some kept else None)) /\
  (forall text s,
      clean_id text = Some s ->
      s <> [] /\
      Forall (fun c => (65 <= c <= 90 \/ 48 <= c <= 57 \/ c = 95 \/ c = 45)%N) s) /\
  (forall url w soup w',
      get_soup url w = (Ret soup, w') ->
      exists data,
        extract_product url w = (Ret data, w') /\
        (forall s, clean_id (sku_el soup) = Some s -> d_id data = Some s) /\
        (clean_id (sku_el soup) = None ->
         d_id data = clean_id (Some (slug_from_url url)))) /\
  (forall url,
      slug_from_url url =
      replace_char 45 95
        (str_upper
           (or_str (Some (last (split_char 47 (strip_char 47 (urlparse_path url))) []))
                   (lit "producto")))) /\
  (forall url,
      last (split_char 47 (strip_char 47 (urlparse_path url))) [] <> [] ->
      slug_from_url url = slug_as_specified url).
Proof.
  split; [exact clean_id_filter |].
  split; [| split; [| split; [reflexivity |]]]; cycle 2.
  { intros url Hne. unfold slug_from_url, slug_as_specified, or_str.
    now rewrite (nonempty_true Hne). }
  - intros text s H. apply clean_id_chars in H. destruct H as [Hn Hc].
    split; [exact Hn |]. eapply Forall_impl; [| exact Hc].
    intros c. apply id_char_spec.
  - intros url w soup w' Hs. exists (product_of url soup).
    split; [apply extract_product_ret; eauto |].
    cbn [d_id product_of]. unfold sku_of. split.
    + intros s Hsku. rewrite Hsku.
      apply clean_id_chars in Hsku. destruct Hsku as [Hn _].
      cbn. now rewrite (nonempty_true Hn).
    + intros Hsku. now rewrite Hsku.
Qed.

(** *** Colour and style *)

Lemma scan_mapc_first (t : pystr) (color : pystr) :
  forall (pre : list (pystr * pystr)) (k v : pystr) (post : list (pystr * pystr)),
    contains k t = true ->
    (forall k' v', In (k', v') pre -> contains k' t = false) ->
    scan_mapc t (pre ++ (k, v) :: post) color = v.
Proof.
  induction pre as [|[k0 v0] pre IH]; intros k v post Hk Hpre; cbn.
  - now rewrite Hk.
  - rewrite (Hpre k0 v0) by now left.
    apply IH; [assumption |]. intros k' v' Hin. apply (Hpre k' v'). now right.
Qed.

Lemma scan_mapc_default (t : pystr) (color : pystr) :
  forall items : list (pystr * pystr),
    (forall k v, In (k, v) items -> contains k t = false) ->
    scan_mapc t items color = color.
Proof.
  induction items as [|[k0 v0] items IH]; intros H; cbn; [reflexivity |].
  rewrite (H k0 v0) by now left.
  apply IH. intros k v Hin. apply (H k v). now right.
Qed.

(** C4: the colour is the one paired with the first keyword of the table,
    in its order, that is a substring of the lowercased name, and the
    neutral gray when no keyword is. *)
Theorem color_first_keyword (name : option pystr) :
  let t := str_lower (or_str name []) in
  map fst mapc =
  map lit ["negro"; "blanco"; "nogal"; "caoba"; "chocolate"; "natural";
           "maple"; "wengue"; "roble"; "azul"; "gris"; "plata"; "dorado";
           "oro"; "bronce"; "marfil"]%string /\
  (forall pre k v post,
      mapc = pre ++ (k, v) :: post ->
      is_substring k t ->
      (forall k' v', In (k', v') pre -> ~ is_substring k' t) ->
      snd (guess_style_and_color name) = v) /\
  ((forall k v, In (k, v) mapc -> ~ is_substring k t) ->
   snd (guess_style_and_color name) = lit "#555555").
Proof.
  cbn zeta. split; [reflexivity |]. unfold guess_style_and_color. cbn [snd].
  split.
  - intros pre k v post E Hk Hpre. rewrite E.
    apply scan_mapc_first; [now apply contains_spec |].
    intros k' v' Hin. apply contains_false. eauto.
  - intros H. apply scan_mapc_default.
    intros k v Hin. apply contains_false. eauto.
Qed.

(** *** Scenario *)

(** C8: the title "Marco Plata Metálico 5 cm" gives width 5.0, the colour
    of plata and the style metal; the style is grain unless a metallic
    keyword occurs in the name, and here plata does. *)
Theorem plata_metalico_scenario :
  str_lower title_plata = lit "marco plata met" ++ [225%N] ++ lit "lico 5 cm" ->
  parse_width_cm (Some title_plata) = Some (5 # 1) /\
  guess_style_and_color (Some title_plata) = (lit "metal", lit "#c0c0c0") /\
  In (lit "plata", lit "#c0c0c0") mapc /\
  In (lit "plata") metal_words /\
  contains (lit "plata") (str_lower title_plata) = true /\
  (forall name,
      fst (guess_style_and_color name) =
      if existsb (fun k => contains k (str_lower (or_str name []))) metal_words
      then lit "metal" else lit "grain") /\
  (forall url w soup w',
      get_soup url w = (Ret soup, w') ->
      title_el soup = Some title_plata ->
      exists data,
        extract_product url w = (Ret data, w') /\
        d_width_cm data = Some (5 # 1) /\
        d_color data = lit "#c0c0c0" /\
        d_style data = lit "metal").
Proof.
  intros Hlow.
  assert (Hw : parse_width_cm (Some title_plata) = Some (5 # 1))
    by (vm_compute; reflexivity).
  assert (Hg : guess_style_and_color (Some title_plata)
               = (lit "metal", lit "#c0c0c0")).
  { unfold guess_style_and_color.
    change (or_str (Some title_plata) []) with title_plata.
    rewrite Hlow. vm_compute. reflexivity. }
  split; [exact Hw |]. split; [exact Hg |].
  split; [cbn; tauto |]. split; [cbn; tauto |].
  split; [rewrite Hlow; vm_compute; reflexivity |].
  split; [reflexivity |].
  intros url w soup w' Hs Ht. exists (product_of url soup).
  split; [apply extract_product_ret; eauto |].
  unfold product_of, title_of. rewrite Ht. cbn [d_width_cm d_color d_style].
  rewrite Hw, Hg. auto.
Qed.

(** *** The output *)

Lemma ids_of_good (w : world) (d : products_t) :
  good_products w d ->
  map (field "id") (dict_values d) = map (fun kv => Some (VStr (fst kv))) d.
Proof.
  intros [_ Hall]. unfold dict_values. rewrite map_map.
  apply map_ext_in. intros kv Hin.
  rewrite Forall_forall in Hall. exact (good_record_id _ _ _ (Hall kv Hin)).
Qed.


(** C6: a new product is recorded whether or not its image could be
    downloaded, with the fields of the extraction; [img] holds the image
    path only when [download_image] returned true, which requires an
    answer with a successful status, and is null otherwise; the loop then
    goes on with the next link.  In the output, a record with an image
    path has its image file on disk. *)
Theorem img_only_after_download :
  (forall products purl w w1 data pid,
      extract_product purl w = (Ret data, w1) ->
      d_id data = Some pid ->
      nonempty pid = true ->
      dict_mem pid products = false ->
      exists ok w2 img,
        download_image (d_img_url data) (img_path pid) w1 = (Ret ok, w2) /\
        process_link products purl w =
        (Ret (products ++
                [(pid, [ ("id"%string, VStr pid);
                         ("name"%string, VStr (d_name data));
                         ("width_cm"%string, opt_float (d_width_cm data));
                         ("color"%string, VStr (d_color data));
                         ("style"%string, VStr (d_style data));
                         ("img"%string, img) ])]), w2) /\
        (ok = false -> img = VNone) /\
        (ok = true -> img = VStr (replace_char 92 47 (img_path pid))) /\
        (img <> VNone ->
         ok = true /\
         exists u h c,
           d_img_url data = Some u /\
           net w1 (length (requests w1)) u = Response true h c) /\
        (forall rest,
            process_links products (purl :: rest) w =
            process_links
              (products ++
                 [(pid, [ ("id"%string, VStr pid);
                          ("name"%string, VStr (d_name data));
                          ("width_cm"%string, opt_float (d_width_cm data));
                          ("color"%string, VStr (d_color data));
                          ("style"%string, VStr (d_style data));
                          ("img"%string, img) ])]) rest w2)) /\
  (forall fuel w w',
      main fuel w = (Ret tt, w') ->
      exists out,
        json_output w' = Some out /\
        Forall (fun r =>
                  field "img" r <> Some VNone ->
                  exists pid c,
                    field "id" r = Some (VStr pid) /\
                    In (img_path pid, Bytes c) (files w')) out).
Proof.
  split.
  - intros products purl w w1 data pid He Hid Hne Hmem.
    destruct (download_image_cases (d_img_url data) (img_path pid) w1)
      as (ok & w2 & Hd & Hfalsy & Htruthy).
    pose proof (process_link_new products purl w w1 w2 data pid ok
                  He Hid Hne Hmem Hd) as Hp.
    exists ok, w2, (img_of ok pid).
    split; [exact Hd |]. split; [exact Hp |].
    split; [now intros -> |]. split; [now intros -> |]. split.
    + intros Himg. destruct ok; [| now elim Himg].
      split; [reflexivity |].
      destruct (truthy (d_img_url data)) eqn:Hu;
        [| destruct (Hfalsy eq_refl); discriminate].
      destruct (Htruthy eq_refl) as (_ & Hiff & _).
      destruct Hiff as [Hiff _]. destruct (Hiff eq_refl) as [(h & c & Hn) _].
      destruct (d_img_url data) as [u|]; [| discriminate].
      cbn in Hu, Hn. rewrite Hu in Hn. eauto.
    + intros rest. cbn [process_links].
      now rewrite (@bind_ret _ _ _ _ _ _ _ Hp).
  - intros fuel w w' H. apply main_output in H.
    destruct H as (products & Hout & [_ Hall]).
    exists (dict_values products). split; [exact Hout |].
    unfold dict_values. apply Forall_map.
    eapply Forall_impl; [| exact Hall].
    intros [pid r] (data & img & -> & _ & _ & Himg) Hnn. cbn in *.
    destruct Himg as [-> | (_ & c & Hin)]; [congruence |].
    exists pid, c. auto.
Qed.

(** C7: [download_image] always returns a Boolean and never raises; a
    null or empty URL gives false with no request sent; a request without
    answer, an error status and a failed write give false. *)
Theorem download_image_never_raises
        (url : option pystr) (path : pystr) (w : world) :
  exists ok w',
    download_image url path w = (Ret ok, w') /\
    (truthy url = false -> ok = false /\ w' = w) /\
    (forall u,
        url = Some u -> nonempty u = true ->
        requests w' = u :: requests w /\
        (net w (length (requests w)) u = NoAnswer -> ok = false) /\
        (forall h c,
            net w (length (requests w)) u = Response false h c -> ok = false) /\
        (disk w path = false -> ok = false)).
Proof.
  destruct (download_image_cases url path w) as (ok & w' & Hd & Hfalsy & Htruthy).
  exists ok, w'. split; [exact Hd |]. split; [exact Hfalsy |].
  intros u -> Hu. destruct (Htruthy Hu) as (Hreq & Hiff & _).
  cbn in Hreq, Hiff. rewrite Hu in Hreq, Hiff.
  split; [exact Hreq |].
  destruct ok; [| tauto].
  destruct Hiff as [Hiff _]. destruct (Hiff eq_refl) as [(h & c & Hn) Hdisk].
  rewrite Hn, Hdisk.
  split; [discriminate |]. split; [intros h' c' [=] | discriminate].
Qed.

Lemma output_shape (fuel : nat) (w w' : world) :
  main fuel w = (Ret tt, w') ->
  exists out,
    json_output w' = Some out /\
    Forall (fun r =>
              map fst r = ["id"; "name"; "width_cm"; "color"; "style"; "img"]%string /\
              (exists s, field "id" r = Some (VStr s)) /\
              (exists s, field "name" r = Some (VStr s)) /\
              (exists s, field "color" r = Some (VStr s)) /\
              (exists s, field "style" r = Some (VStr s)) /\
              (field "width_cm" r = Some VNone \/
               exists x, field "width_cm" r = Some (VFloat x)) /\
              (field "img" r = Some VNone \/
               exists s, field "img" r = Some (VStr s))) out.
Proof.
  intros H. apply main_output in H.
  destruct H as (products & Hout & [_ Hall]).
  exists (dict_values products). split; [exact Hout |].
  unfold dict_values. apply Forall_map.
  eapply Forall_impl; [| exact Hall].
  intros [pid r] (data & img & -> & _ & _ & Himg). cbn.
  repeat split; eauto.
  - destruct (d_width_cm data); cbn; eauto.
  - destruct Himg as [-> | [-> _]]; eauto.
Qed.

(** C10: every record of the output has a non-empty id made of
    characters of A-Z, 0-9, '-' and '_'; a product whose SKU and slug both
    sanitize to null leaves the dictionary as it is. *)
Theorem output_ids_sanitized :
  (forall fuel w w',
      main fuel w = (Ret tt, w') ->
      exists out,
        json_output w' = Some out /\
        Forall (fun r =>
                  exists pid,
                    field "id" r = Some (VStr pid) /\ pid <> [] /\
                    Forall (fun c => (65 <= c <= 90 \/ 48 <= c <= 57 \/
                                      c = 95 \/ c = 45)%N) pid) out) /\
  (forall products purl w soup w1,
      get_soup purl w = (Ret soup, w1) ->
      clean_id (sku_el soup) = None ->
      clean_id (Some (slug_from_url purl)) = None ->
      process_link products purl w = (Ret products, w1)).
Proof.
  split.
  - intros fuel w w' H. apply main_output in H.
    destruct H as (products & Hout & [_ Hall]).
    exists (dict_values products). split; [exact Hout |].
    unfold dict_values. apply Forall_map.
    eapply Forall_impl; [| exact Hall].
    intros [pid r] (data & img & -> & Hne & Hc & _). cbn.
    exists pid. repeat split; try assumption.
    eapply Forall_impl; [| exact Hc]. intros c. apply id_char_spec.
  - intros products purl w soup w1 Hs Hsku Hslug.
    apply (process_link_null products purl w w1 (product_of purl soup)).
    + apply extract_product_ret. eauto.
    + cbn [d_id product_of]. unfold sku_of. now rewrite Hsku, Hslug.
Qed.

End Properties.


(** * More of the script *)

Unset Implicit Arguments.

(** ** Widths *)

Lemma py_float_nonneg (v : pystr) (x : Q) : py_float v = Some x -> (0 <= x)%Q.
Proof.
  unfold py_float.
  destruct (split_char 46 v) as [|i [|f [|g l]]]; try discriminate.
  - destruct (nonempty i); [| discriminate].
    destruct (digits_value 0 i) as [n|]; [| discriminate].
    intros [= <-]. unfold Qle. cbn. lia.
  - destruct (nonempty i && nonempty f); [| discriminate].
    destruct (digits_value 0 (i ++ f)) as [n|]; [| discriminate].
    intros [= <-]. unfold Qle. cbn. lia.
Qed.

(** X1: a width that [parse_width_cm] returns is never negative: the
    pattern has no sign, so a minus before the digits is not read. *)
Theorem parse_width_cm_nonneg (text : option pystr) (x : Q) :
  parse_width_cm text = Some x -> (0 <= x)%Q.
Proof.
  destruct text as [title|]; [| discriminate].
  rewrite parse_width_cm_search.
  destruct (re_search width_re title) as [g|]; [| discriminate].
  apply py_float_nonneg.
Qed.

Lemma match_group1_nondigit (c : N) (s : pystr) :
  isdecimal c = false -> match_group1 width_re (c :: s) = None.
Proof.
  intros Hc. unfold match_group1. cbn. now rewrite Hc.
Qed.

Lemma re_search_skip_nondigits (pre s : pystr) :
  Forall (fun c => isdecimal c = false) pre ->
  re_search width_re (pre ++ s) = re_search width_re s.
Proof.
  induction 1 as [|c pre Hc _ IH]; [reflexivity |].
  cbn [app re_search]. now rewrite (match_group1_nondigit c (pre ++ s) Hc).
Qed.

(** X2: text without a decimal digit in front of a title does not change
    the width read from it. *)
Theorem parse_width_cm_skips_prefix (pre title : pystr) :
  Forall (fun c => isdecimal c = false) pre ->
  parse_width_cm (Some (pre ++ title)) = parse_width_cm (Some title).
Proof.
  intros H. rewrite !parse_width_cm_search.
  now rewrite (re_search_skip_nondigits pre title H).
Qed.

(** ** Downloads *)


(** ** The order of [sorted] *)

Lemma str_leb_total (a : pystr) :
  forall b, str_leb a b = true \/ str_leb b a = true.
Proof.
  induction a as [|x a IH]; intros [|y b]; cbn; auto.
  destruct (IH b) as [H | H]; rewrite H;
    destruct (N.compare_spec x y) as [-> | Hlt | Hgt].
  - left. rewrite N.eqb_refl. apply orb_true_r.
  - left. apply N.ltb_lt in Hlt. now rewrite Hlt.
  - right. apply N.ltb_lt in Hgt. now rewrite Hgt.
  - right. rewrite N.eqb_refl. apply orb_true_r.
  - left. apply N.ltb_lt in Hlt. now rewrite Hlt.
  - right. apply N.ltb_lt in Hgt. now rewrite Hgt.
Qed.

Lemma str_leb_trans (a : pystr) :
  forall b c, str_leb a b = true -> str_leb b c = true -> str_leb a c = true.
Proof.
  induction a as [|x a IH]; intros [|y b] [|z c]; cbn; try discriminate; auto.
  rewrite !orb_true_iff, !andb_true_iff, !N.ltb_lt, !N.eqb_eq.
  intros [H1 | [-> H1]] [H2 | [-> H2]].
  - left. lia.
  - left. lia.
  - left. lia.
  - right. split; [reflexivity |]. eapply IH; eassumption.
Qed.

Lemma insert_sorted_In (x y : pystr) (l : list pystr) :
  In y (insert_sorted x l) <-> y = x \/ In y l.
Proof.
  induction l as [|z l IH]; cbn.
  - intuition congruence.
  - destruct (str_leb x z); cbn; [intuition congruence |].
    rewrite IH. intuition congruence.
Qed.

Lemma sorted_In (y : pystr) (seen : list pystr) :
  In y (sorted seen) <-> In y seen.
Proof.
  unfold sorted. induction seen as [|x seen IH]; cbn; [tauto |].
  rewrite insert_sorted_In, IH. intuition congruence.
Qed.

Lemma insert_sorted_NoDup (x : pystr) (l : list pystr) :
  ~ In x l -> NoDup l -> NoDup (insert_sorted x l).
Proof.
  induction l as [|z l IH]; cbn; intros Hx Hnd.
  - constructor; [tauto | constructor].
  - destruct (str_leb x z).
    + constructor; [exact Hx | exact Hnd].
    + inversion Hnd as [|? ? Hz Hl]; subst. constructor.
      * rewrite insert_sorted_In. intuition congruence.
      * apply IH; [tauto | exact Hl].
Qed.

Lemma sorted_NoDup (seen : list pystr) : NoDup seen -> NoDup (sorted seen).
Proof.
  unfold sorted. induction 1 as [|x seen Hx _ IH]; cbn; [constructor |].
  apply insert_sorted_NoDup; [| exact IH].
  now rewrite (sorted_In x seen).
Qed.

Lemma insert_sorted_ordered (x : pystr) (l : list pystr) :
  StronglySorted str_le l -> StronglySorted str_le (insert_sorted x l).
Proof.
  induction 1 as [|z l Hl IH Hz]; cbn.
  - constructor; constructor.
  - destruct (str_leb x z) eqn:Hxz.
    + constructor; [now constructor |].
      constructor; [exact Hxz |].
      eapply Forall_impl; [| exact Hz].
      intros b Hb. exact (str_leb_trans _ _ _ Hxz Hb).
    + constructor; [exact IH |].
      apply Forall_forall. intros b Hb. apply insert_sorted_In in Hb.
      destruct Hb as [-> | Hb].
      * destruct (str_leb_total x z) as [H | H]; [congruence | exact H].
      * rewrite Forall_forall in Hz. now apply Hz.
Qed.

Lemma sorted_ordered (seen : list pystr) : StronglySorted str_le (sorted seen).
Proof.
  unfold sorted. induction seen as [|x seen IH]; cbn; [constructor |].
  now apply insert_sorted_ordered.
Qed.


Lemma set_add_NoDup (x : pystr) (seen : list pystr) :
  NoDup seen -> NoDup (set_add x seen).
Proof.
  intros Hnd. unfold set_add. destruct (existsb (str_eqb x) seen) eqn:H;
    [exact Hnd |].
  constructor; [| exact Hnd]. intros Hin.
  assert (existsb (str_eqb x) seen = true); [| congruence].
  apply existsb_exists. exists x. split; [exact Hin | apply str_eqb_refl].
Qed.

(** ** Identifiers and slugs *)

Lemma id_char_not_space (c : N) : id_char c = true -> isspace c = false.
Proof.
  intros Hc. destruct (isspace c) eqn:Hs; [| reflexivity].
  apply isspace_In in Hs.
  assert (A : forallb (fun x => negb (id_char x)) space_points = true)
    by (vm_compute; reflexivity).
  rewrite forallb_forall in A. specialize (A c Hs).
  rewrite Hc in A. discriminate.
Qed.

Lemma dropwhile_space_id (s : pystr) : all id_char s -> dropwhile isspace s = s.
Proof.
  intros H. destruct H as [|c s Hc _]; [reflexivity |].
  cbn [dropwhile]. now rewrite (id_char_not_space c Hc).
Qed.

Lemma str_strip_id (s : pystr) : all id_char s -> str_strip s = s.
Proof.
  intros H. unfold str_strip, rstrip, lstrip.
  rewrite (dropwhile_space_id s H).
  rewrite dropwhile_space_id by (apply Forall_rev; exact H).
  apply rev_involutive.
Qed.

Lemma filter_all (p : N -> bool) (s : pystr) : all p s -> filter p s = s.
Proof.
  induction 1 as [|c s Hc _ IH]; cbn; [reflexivity |].
  now rewrite Hc, IH.
Qed.

Lemma replace_char_absent (a b : N) (s : pystr) :
  ~ In a s -> replace_char a b s = s.
Proof.
  induction s as [|c s IH]; cbn; intros H; [reflexivity |].
  destruct (N.eqb_spec c a) as [-> | _]; [tauto |].
  f_equal. apply IH. tauto.
Qed.

Lemma replace_char_removes (a b : N) (s : pystr) :
  a <> b -> ~ In a (replace_char a b s).
Proof.
  intros Hab Hin. unfold replace_char in Hin. apply in_map_iff in Hin.
  destruct Hin as (c & E & _).
  destruct (N.eqb_spec c a); congruence.
Qed.

Section Coverage.
Context {L : PyLib}.

(** X3: [clean_id] is idempotent: an identifier it returned is returned
    unchanged when cleaned again, as [str.upper] leaves the characters of
    A-Z, 0-9, '-' and '_' alone. *)
Theorem clean_id_idempotent (text : option pystr) (s : pystr) :
  (forall s, all id_char s -> str_upper s = s) ->
  clean_id text = Some s ->
  clean_id (Some s) = Some s.
Proof.
  intros Hup H. apply clean_id_chars in H. destruct H as [Hne Hall].
  rewrite clean_id_filter. cbn zeta.
  assert (E : or_str (Some s) [] = s)
    by (cbn; now rewrite (@nonempty_true s Hne)).
  rewrite E, (str_strip_id s Hall), (Hup s Hall), (filter_all id_char s Hall).
  now rewrite (@nonempty_true s Hne).
Qed.

(** X4: the slug of a URL is never empty, thanks to the "producto"
    default, and never contains a hyphen. *)
Theorem slug_from_url_shape (url : pystr) :
  (forall s, s <> [] -> str_upper s <> []) ->
  slug_from_url url <> [] /\ ~ In 45%N (slug_from_url url).
Proof.
  intros Hup. unfold slug_from_url. cbn zeta. split.
  - set (seg := last _ _).
    assert (Hseg : or_str (Some seg) (lit "producto") <> [])
      by (cbn; destruct seg; cbn; discriminate).
    apply Hup in Hseg. unfold replace_char.
    destruct (str_upper _); [congruence | discriminate].
  - apply replace_char_removes. discriminate.
Qed.

(** ** Colour and style *)

Lemma scan_mapc_inv (t : pystr) (color : pystr) :
  forall items : list (pystr * pystr),
    scan_mapc t items color = color \/
    exists k, In (k, scan_mapc t items color) items /\ contains k t = true.
Proof.
  induction items as [|[k0 v0] items IH]; cbn; [now left |].
  destruct (contains k0 t) eqn:Hk.
  - right. exists k0. auto.
  - destruct IH as [-> | (k & Hin & Hc)]; [now left |].
    right. exists k. auto.
Qed.

(** X5: whatever the name, the colour is [#] and six lowercase hex
    digits and the style is one of grain and metal. *)
Theorem guess_style_and_color_range (name : option pystr) :
  is_hex_color (snd (guess_style_and_color name)) = true /\
  (fst (guess_style_and_color name) = lit "grain" \/
   fst (guess_style_and_color name) = lit "metal").
Proof.
  unfold guess_style_and_color. cbn [fst snd]. split.
  - destruct (scan_mapc_inv (str_lower (or_str name [])) (lit "#555555") mapc)
      as [-> | (k & Hin & _)]; [reflexivity |].
    assert (A : forallb (fun kv => is_hex_color (snd kv)) mapc = true)
      by (vm_compute; reflexivity).
    rewrite forallb_forall in A. exact (A _ Hin).
  - destruct (existsb _ metal_words); auto.
Qed.

(** X6: a metallic colour (that of plata, of dorado and oro, or of
    bronce) always comes with the style metal. *)
Theorem metallic_color_has_metal_style (name : option pystr) :
  In (snd (guess_style_and_color name))
     [lit "#c0c0c0"; lit "#c7a446"; lit "#8c6b3f"] ->
  fst (guess_style_and_color name) = lit "metal".
Proof.
  unfold guess_style_and_color. cbn [fst snd].
  set (t := str_lower (or_str name [])).
  intros H.
  assert (Hm : existsb (fun k => contains k t) metal_words = true);
    [| now rewrite Hm].
  destruct (scan_mapc_inv t (lit "#555555") mapc) as [E | (k & Hin & Hk)].
  - rewrite E in H. exfalso. vm_compute in H. intuition discriminate.
  - remember (scan_mapc t mapc (lit "#555555")) as v eqn:Ev. clear Ev.
    apply existsb_exists. exists k. split; [| exact Hk].
    cbn in Hin.
    repeat (destruct Hin as [Hin | Hin];
            [injection Hin as <- <-;
             first [ exfalso; vm_compute in H; intuition discriminate
                   | cbn; auto 10 ] |]).
    destruct Hin.
Qed.

(** ** Requests *)

Lemma get_soup_world (url : pystr) (w : world) :
  net (snd (get_soup url w)) = net w /\
  disk (snd (get_soup url w)) = disk w /\
  requests (snd (get_soup url w)) = url :: requests w.
Proof.
  unfold get_soup, bind, requests_get, raise_for_status.
  destruct (net w (length (requests w)) url) as [|[] h c]; cbn; auto.
Qed.


(** ** Link discovery *)

Lemma add_links_NoDup (hrefs : list (option pystr)) :
  forall seen, NoDup seen -> NoDup (add_links hrefs seen).
Proof.
  unfold add_links. induction hrefs as [|a hrefs IH]; intros seen H; cbn;
    [exact H |].
  apply IH. now apply set_add_NoDup.
Qed.


Lemma find_product_links_loop_sorted (fuel : nat) :
  forall (url : pystr) (seen : list pystr) (w w' : world) (links : list pystr),
    NoDup seen ->
    find_product_links_loop fuel url seen w = (Ret links, w') ->
    StronglySorted str_le links /\ NoDup links.
Proof.
  induction fuel as [|n IH]; intros url seen w w' links Hnd;
    cbn [find_product_links_loop]; [discriminate |].
  assert (Hret : forall s, NoDup s ->
                   ret (sorted s) w = (Ret links, w') \/
                   (exists w1, ret (sorted s) w1 = (Ret links, w')) ->
                   StronglySorted str_le links /\ NoDup links).
  { intros s Hs [H | (w1 & H)]; injection H as <- _;
      (split; [apply sorted_ordered | now apply sorted_NoDup]). }
  destruct (nonempty url); cbn [negb]; [| intros H; eapply Hret; eauto].
  intros H. apply bind_ret_inv in H. destruct H as (soup & w1 & _ & H).
  pose proof (add_links_NoDup (producto_links soup) _
                (add_links_NoDup (loop_links soup) _ Hnd)) as Hnd'.
  destruct (next_link soup) as [href|].
  - eapply IH; eassumption.
  - eapply Hret; eauto.
Qed.

(** X8: the links [find_product_links] returns are in ascending order of
    code points and without duplicates. *)
Theorem find_product_links_sorted
        (fuel : nat) (cat_url : pystr) (w w' : world) (links : list pystr) :
  find_product_links fuel cat_url w = (Ret links, w') ->
  StronglySorted str_le links /\ NoDup links.
Proof.
  apply find_product_links_loop_sorted. constructor.
Qed.

Lemma find_product_links_one_page
      (fuel : nat) (cat_url : pystr) (w w1 : world) (soup : Soup) :
  cat_url <> [] ->
  get_soup cat_url w = (Ret soup, w1) ->
  next_link soup = None ->
  find_product_links (S fuel) cat_url w
  = (Ret (sorted (add_links (producto_links soup)
                            (add_links (loop_links soup) []))), w1).
Proof.
  intros Hne Hs Hnext. unfold find_product_links.
  cbn [find_product_links_loop].
  rewrite (@nonempty_true cat_url Hne). cbn [negb].
  now rewrite (@bind_ret _ _ _ _ _ _ _ Hs), Hnext.
Qed.


Lemma find_product_links_loop_endless (site : nat -> pystr -> response) :
  (forall n u, exists soup c,
      site n u = Response true soup c /\ next_link soup <> None) ->
  (forall h, urljoin BASE h <> []) ->
  forall (fuel : nat) (url : pystr) (seen : list pystr) (w : world),
    net w = site -> url <> [] ->
    fst (find_product_links_loop fuel url seen w) = Timeout.
Proof.
  intros Hsite Hjoin. induction fuel as [|n IH]; intros url seen w Hnet Hne;
    cbn [find_product_links_loop]; [reflexivity |].
  rewrite (@nonempty_true url Hne). cbn [negb].
  destruct (get_soup_world url w) as (Hnet1 & _ & _).
  unfold bind.
  assert (Hs : exists soup, fst (get_soup url w) = Ret soup /\ next_link soup <> None).
  { unfold get_soup, bind, requests_get, raise_for_status. rewrite Hnet.
    destruct (Hsite (length (requests w)) url) as (soup & c & -> & Hn).
    cbn. eauto. }
  destruct (get_soup url w) as [r w1]. cbn in Hnet1, Hs.
  destruct Hs as (soup & -> & Hn).
  destruct (next_link soup) as [href|]; [| congruence].
  apply IH; [congruence | apply Hjoin].
Qed.

(** X10: pagination has no guard against a listing that never ends: on a
    site where every page has a next link, [find_product_links] does not
    return within any budget, and neither does [main]. *)
Theorem pagination_without_end
        (site : nat -> pystr -> response) (fuel : nat) (w : world) :
  (forall n u, exists soup c,
      site n u = Response true soup c /\ next_link soup <> None) ->
  (forall h, urljoin BASE h <> []) ->
  net w = site ->
  (forall cat_url, cat_url <> [] ->
                   fst (find_product_links fuel cat_url w) = Timeout) /\
  fst (main fuel w) = Timeout.
Proof.
  intros Hsite Hjoin Hnet.
  assert (H : forall cat_url, cat_url <> [] ->
                fst (find_product_links fuel cat_url w) = Timeout)
    by (intros c Hc; now apply (find_product_links_loop_endless site)).
  split; [exact H |].
  unfold main, bind. cbn [process_categories CATEGORIAS]. unfold bind.
  specialize (H (lit "https://www.marcosymarcos.mx/categoria/molduras/poliestireno/")).
  destruct (find_product_links fuel _ w) as [r w1]. cbn in H.
  rewrite H by discriminate. reflexivity.
Qed.

(** X11: a failure of link discovery is not caught: [main] ends with the
    same exception, and neither the output file nor any other file has
    been written. *)
Theorem listing_failure_aborts (fuel : nat) (w w1 : world) (e : exn) :
  find_product_links fuel
    (lit "https://www.marcosymarcos.mx/categoria/molduras/poliestireno/") w
  = (Raise e, w1) ->
  main fuel w = (Raise e, w1) /\ files w1 = files w.
Proof.
  intros H. split.
  - unfold main, bind. cbn [process_categories CATEGORIAS]. unfold bind.
    now rewrite H.
  - pose proof (find_product_links_files fuel
                  (lit "https://www.marcosymarcos.mx/categoria/molduras/poliestireno/")
                  [] w) as Hf.
    unfold find_product_links in H. now rewrite H in Hf.
Qed.

(** X12: a category whose listing has no product anchor and no next link
    still produces the output file, holding the empty array. *)
Theorem empty_category_writes_empty_array
        (fuel : nat) (w w1 : world) (soup : Soup) :
  get_soup (lit "https://www.marcosymarcos.mx/categoria/molduras/poliestireno/") w
  = (Ret soup, w1) ->
  loop_links soup = [] -> producto_links soup = [] -> next_link soup = None ->
  disk w OUT_JSON = true ->
  exists w',
    main (S fuel) w = (Ret tt, w') /\
    json_output w' = Some [] /\
    files w' = (OUT_JSON, Json []) :: files w.
Proof.
  intros Hs Hl Hp Hn Hd.
  destruct (get_soup_world
              (lit "https://www.marcosymarcos.mx/categoria/molduras/poliestireno/") w)
    as (_ & Hdisk & _).
  pose proof (get_soup_files
                (lit "https://www.marcosymarcos.mx/categoria/molduras/poliestireno/") w)
    as Hfiles.
  rewrite Hs in Hdisk, Hfiles. cbn in Hdisk, Hfiles.
  assert (Hcat : lit "https://www.marcosymarcos.mx/categoria/molduras/poliestireno/" <> [])
    by discriminate.
  pose proof (find_product_links_one_page fuel _ w w1 soup Hcat Hs Hn) as Hfind.
  rewrite Hl, Hp in Hfind. cbn [add_links fold_left sorted fold_right] in Hfind.
  assert (Hpc : process_categories (S fuel) [] CATEGORIAS w = (Ret [], w1)).
  { cbn [process_categories CATEGORIAS].
    rewrite (@bind_ret _ _ _ _ _ _ _ Hfind). reflexivity. }
  unfold main. rewrite (@bind_ret _ _ _ _ _ _ _ Hpc).
  unfold write_file. cbn [dict_values map]. rewrite Hdisk, Hd.
  eexists. split; [reflexivity |]. split.
  - unfold json_output. cbn [files find fst]. now rewrite str_eqb_refl.
  - cbn. now rewrite Hfiles.
Qed.

(** ** The aggregation loop and the files of a run *)

(** X13: a product page that cannot be fetched is skipped: the dictionary
    is unchanged, no file is written, one request was sent, and the loop
    goes on with the remaining links. *)
Theorem failed_product_is_skipped
        (products : products_t) (purl : pystr) (rest : list pystr)
        (w w1 : world) (e : exn) :
  get_soup purl w = (Raise e, w1) ->
  process_link products purl w = (Ret products, w1) /\
  process_links products (purl :: rest) w = process_links products rest w1 /\
  files w1 = files w /\
  requests w1 = purl :: requests w.
Proof.
  intros Hs.
  assert (He : extract_product purl w = (Raise e, w1))
    by (rewrite extract_product_unfold; now rewrite Hs).
  pose proof (process_link_raise products purl w w1 e He) as Hp.
  split; [exact Hp |]. split.
  - cbn [process_links]. now rewrite (@bind_ret _ _ _ _ _ _ _ Hp).
  - destruct (get_soup_world purl w) as (_ & _ & Hr).
    pose proof (get_soup_files purl w) as Hf.
    rewrite Hs in Hr, Hf. auto.
Qed.


Lemma img_path_literal (pid : pystr) :
  all id_char pid ->
  replace_char 92 47 (img_path pid) = lit "img/molduras/" ++ pid ++ lit ".jpg".
Proof.
  intros H. rewrite replace_char_absent.
  - reflexivity.
  - unfold img_path, path_join, OUT_DIR. rewrite !in_app_iff.
    intros [Hin | [Hin | [Hin | Hin]]].
    + vm_compute in Hin. intuition discriminate.
    + vm_compute in Hin. intuition discriminate.
    + unfold all in H. rewrite Forall_forall in H. specialize (H _ Hin).
      discriminate.
    + vm_compute in Hin. intuition discriminate.
Qed.

(** X15: in the output an [img] that is not null is the path
    img/molduras/<id>.jpg of the record's own id, with forward slashes. *)
Theorem output_img_paths (fuel : nat) (w w' : world) :
  main fuel w = (Ret tt, w') ->
  exists out,
    json_output w' = Some out /\
    Forall (fun r =>
              field "img" r = Some VNone \/
              exists pid,
                field "id" r = Some (VStr pid) /\
                field "img" r
                = Some (VStr (lit "img/molduras/" ++ pid ++ lit ".jpg"))) out.
Proof.
  intros H. apply main_output in H.
  destruct H as (products & Hout & [_ Hall]).
  exists (dict_values products). split; [exact Hout |].
  unfold dict_values. apply Forall_map.
  eapply Forall_impl; [| exact Hall].
  intros [pid r] Hg. cbn [fst snd] in Hg |- *.
  destruct Hg as (data & img & -> & _ & Hc & Himg).
  destruct Himg as [-> | (-> & _)]; [left; reflexivity | right].
  exists pid. rewrite (img_path_literal pid Hc). split; reflexivity.
Qed.

Lemma image_files_incl (keys keys' : list pystr)
      (extra : list (pystr * file_content)) :
  incl keys keys' -> image_files keys extra -> image_files keys' extra.
Proof.
  intros Hi H. eapply Forall_impl; [| exact H].
  intros f (pid & c & -> & Hin). eauto.
Qed.

Lemma process_link_writes (products : products_t) (purl : pystr) (w : world) :
  exists products' w' extra,
    process_link products purl w = (Ret products', w') /\
    files w' = extra ++ files w /\
    incl (map fst products) (map fst products') /\
    image_files (map fst products') extra.
Proof.
  destruct (process_link_cases products purl w)
    as [(w1 & H1 & Hf) | (w1 & w2 & data & pid & ok & He & _ & _ & _ & Hd & H1)].
  - exists products, w1, []. repeat split; try assumption.
    + apply incl_refl.
    + constructor.
  - pose proof (extract_product_files purl w) as Hf1. rewrite He in Hf1.
    cbn in Hf1.
    destruct (download_image_cases (d_img_url data) (img_path pid) w1)
      as (ok' & w2' & Hd' & Hfalsy & Htruthy).
    rewrite Hd in Hd'. injection Hd' as <- <-.
    assert (Hin : In pid (map fst (products ++ [(pid, rec_of pid data (img_of ok pid))])))
      by (rewrite map_app; apply in_or_app; right; now left).
    assert (Hincl : incl (map fst products)
                         (map fst (products ++ [(pid, rec_of pid data (img_of ok pid))])))
      by (rewrite map_app; apply incl_appl, incl_refl).
    assert (Hfiles : exists extra,
               files w2 = extra ++ files w1 /\
               image_files (map fst (products ++ [(pid, rec_of pid data (img_of ok pid))]))
                           extra).
    { destruct (truthy (d_img_url data)) eqn:Hu.
      - destruct (Htruthy eq_refl) as (_ & _ & Hok & Hko). destruct ok.
        + destruct (Hok eq_refl) as (c & Hc).
          exists [(img_path pid, Bytes c)]. split; [exact Hc |].
          constructor; [eauto | constructor].
        + exists []. split; [exact (Hko eq_refl) | constructor].
      - destruct (Hfalsy eq_refl) as [_ ->].
        exists []. split; [reflexivity | constructor]. }
    destruct Hfiles as (extra & Hx & Himg).
    do 3 eexists. split; [exact H1 |].
    split; [rewrite Hx, Hf1; reflexivity |]. split; assumption.
Qed.

Lemma process_links_writes (purls : list pystr) :
  forall (products : products_t) (w : world),
  exists products' w' extra,
    process_links products purls w = (Ret products', w') /\
    files w' = extra ++ files w /\
    incl (map fst products) (map fst products') /\
    image_files (map fst products') extra.
Proof.
  induction purls as [|purl purls IH]; intros products w; cbn [process_links].
  - exists products, w, []. repeat split; [apply incl_refl | constructor].
  - destruct (process_link_writes products purl w)
      as (products1 & w1 & extra1 & H1 & Hf1 & Hi1 & Him1).
    rewrite (@bind_ret _ _ _ _ _ _ _ H1).
    destruct (IH products1 w1) as (products' & w' & extra2 & H2 & Hf2 & Hi2 & Him2).
    exists products', w', (extra2 ++ extra1). split; [exact H2 |].
    split; [rewrite Hf2, Hf1; apply app_assoc |].
    split; [eapply incl_tran; eassumption |].
    apply Forall_app. split; [exact Him2 |].
    eapply image_files_incl; eassumption.
Qed.

Lemma process_categories_writes (fuel : nat) (cats : list pystr) :
  forall (products products' : products_t) (w w' : world),
    process_categories fuel products cats w = (Ret products', w') ->
    exists extra,
      files w' = extra ++ files w /\
      incl (map fst products) (map fst products') /\
      image_files (map fst products') extra.
Proof.
  induction cats as [|cat cats IH]; intros products products' w w';
    cbn [process_categories].
  - intros [= <- <-]. exists []. repeat split; [apply incl_refl | constructor].
  - intros H. apply bind_ret_inv in H. destruct H as (purls & w1 & Hl & H).
    pose proof (find_product_links_files fuel cat [] w) as Hf0.
    unfold find_product_links in Hl. rewrite Hl in Hf0. cbn in Hf0.
    destruct (process_links_writes purls products w1)
      as (products1 & w2 & extra1 & H1 & Hf1 & Hi1 & Him1).
    rewrite (@bind_ret _ _ _ _ _ _ _ H1) in H.
    destruct (IH products1 products' w2 w' H) as (extra2 & Hf2 & Hi2 & Him2).
    exists (extra2 ++ extra1).
    split; [rewrite Hf2, Hf1, Hf0; apply app_assoc |].
    split; [eapply incl_tran; eassumption |].
    apply Forall_app. split; [exact Him2 |].
    eapply image_files_incl; eassumption.
Qed.

(** X16: a run of [main] that completes has written the output file last
    and, before it, only image files, each at the image path of an
    identifier that is in the output. *)
Theorem main_writes_only_outputs (fuel : nat) (w w' : world) :
  main fuel w = (Ret tt, w') ->
  exists out extra,
    files w' = (OUT_JSON, Json out) :: extra ++ files w /\
    Forall (fun f =>
              exists pid c,
                f = (img_path pid, Bytes c) /\
                In (Some (VStr pid)) (map (field "id") out)) extra.
Proof.
  unfold main. intros H.
  apply bind_ret_inv in H. destruct H as (products & w1 & Hc & H).
  assert (Hgood : good_products w1 products).
  { eapply process_categories_inv; [exact Hc |]. split; constructor. }
  destruct (process_categories_writes fuel CATEGORIAS [] products w w1 Hc)
    as (extra & Hf & _ & Himg).
  unfold write_file in H. destruct (disk w1 OUT_JSON); [| discriminate].
  injection H as <-. exists (dict_values products), extra. cbn [files].
  split; [now rewrite Hf |].
  rewrite (ids_of_good w1 products Hgood).
  eapply Forall_impl; [| exact Himg].
  intros f (pid & c & -> & Hin). exists pid, c. split; [reflexivity |].
  apply in_map_iff in Hin. destruct Hin as (kv & <- & Hkv).
  apply in_map_iff. exists kv. auto.
Qed.

End Coverage.

Set Implicit Arguments.

#[local] Existing Instance ascii_lib.

Lemma run_eq (A : Type) (m : M A) (w : world) (r : result A) :
  fst (m w) = r -> m w = (r, snd (m w)).
Proof. intros <-. apply surjective_pairing. Qed.

Lemma simple_urljoin_nonempty (u : pystr) : u <> [] -> urljoin BASE u <> [].
Proof.
  intros Hu. cbn [urljoin ascii_lib]. unfold simple_urljoin.
  destruct u as [|c u]; [congruence |]. cbn [nonempty negb].
  destruct (startswith (lit "http") (c :: u)); discriminate.
Qed.


(** ** The sample site *)

Lemma sample_run :
  fst (main 5 w_sample) = Ret tt /\
  json_output (snd (main 5 w_sample)) = Some out_sample.
Proof. split; vm_compute; reflexivity. Qed.

(** C9, amended: every object of the output has exactly the keys id,
    name, width_cm, color, style, img, in this order; id, name, color and
    style are strings, never null; width_cm is a number or null and img
    is a string or null, and both nulls occur. *)
Theorem output_keys_and_nulls :
  (forall (L : PyLib) (fuel : nat) (w w' : world),
      main fuel w = (Ret tt, w') ->
      exists out,
        json_output w' = Some out /\
        Forall (fun r =>
                  map fst r = ["id"; "name"; "width_cm"; "color"; "style"; "img"]%string /\
                  (exists s, field "id" r = Some (VStr s)) /\
                  (exists s, field "name" r = Some (VStr s)) /\
                  (exists s, field "color" r = Some (VStr s)) /\
                  (exists s, field "style" r = Some (VStr s)) /\
                  (field "width_cm" r = Some VNone \/
                   exists x, field "width_cm" r = Some (VFloat x)) /\
                  (field "img" r = Some VNone \/
                   exists s, field "img" r = Some (VStr s))) out) /\
  (exists (L : PyLib) (fuel : nat) (w w' : world) (out : list record) (r1 r2 : record),
      main fuel w = (Ret tt, w') /\ json_output w' = Some out /\
      In r1 out /\ field "width_cm" r1 = Some VNone /\
      In r2 out /\ field "img" r2 = Some VNone).
Proof.
  split; [exact (@output_shape) |].
  destruct sample_run as [Hm Hout].
  exists ascii_lib, 5%nat, w_sample, (snd (main 5 w_sample)), out_sample,
    (nth 1 out_sample []), (nth 0 out_sample []).
  split; [exact (@run_eq _ _ _ _ Hm) |]. split; [exact Hout |].
  split; [right; left; reflexivity |]. split; [reflexivity |].
  split; [left; reflexivity | reflexivity].
Qed.

(** ** The theorems at the sample site *)

Lemma extract_product_image_order_witness :
  (forall u, u <> [] -> urljoin BASE u <> []) /\
  fst (extract_product url_b w_sample) = Ret (product_of url_b page_b) /\
  exists soup,
    get_soup url_b w_sample = (Ret soup, snd (extract_product url_b w_sample)) /\
    d_img_url (product_of url_b page_b) =
    option_map (urljoin BASE)
      (first_truthy [og_content soup; gallery_source soup; featured_src soup]) /\
    (truthy (og_content soup) = false ->
     truthy (gallery_source soup) = false ->
     truthy (featured_src soup) = false ->
     d_img_url (product_of url_b page_b) = None).
Proof.
  split; [exact simple_urljoin_nonempty |].
  assert (H : fst (extract_product url_b w_sample) = Ret (product_of url_b page_b))
    by (vm_compute; reflexivity).
  split; [exact H |].
  exact (extract_product_image_order url_b w_sample _ _ simple_urljoin_nonempty
           (@run_eq _ _ _ _ H)).
Defined.


Lemma clean_id_sanitizes_witness :
  clean_id (sku_el page_b) = None /\
  get_soup url_b w_sample = (Ret page_b, snd (get_soup url_b w_sample)) /\
  exists data,
    extract_product url_b w_sample = (Ret data, snd (get_soup url_b w_sample)) /\
    d_id data = clean_id (Some (slug_from_url url_b)).
Proof.
  assert (Hs : get_soup url_b w_sample = (Ret page_b, snd (get_soup url_b w_sample)))
    by (apply run_eq; vm_compute; reflexivity).
  assert (Hn : clean_id (sku_el page_b) = None) by (vm_compute; reflexivity).
  split; [exact Hn |]. split; [exact Hs |].
  destruct (@clean_id_sanitizes ascii_lib) as (_ & _ & H & _).
  destruct (H url_b w_sample page_b _ Hs) as (data & He & _ & Hslug).
  exists data. split; [exact He | exact (Hslug Hn)].
Defined.

Lemma color_first_keyword_witness :
  is_substring (lit "plata") (str_lower (lit "Marco Dorado Plata")) /\
  is_substring (lit "dorado") (str_lower (lit "Marco Dorado Plata")) /\
  snd (guess_style_and_color (Some (lit "Marco Dorado Plata"))) = lit "#c0c0c0".
Proof.
  assert (Hk : is_substring (lit "plata") (str_lower (lit "Marco Dorado Plata")))
    by (apply contains_spec; vm_compute; reflexivity).
  split; [exact Hk |].
  split; [apply contains_spec; vm_compute; reflexivity |].
  destruct (@color_first_keyword ascii_lib (Some (lit "Marco Dorado Plata")))
    as (_ & H & _).
  apply (H (firstn 11 mapc) (lit "plata") (lit "#c0c0c0") (skipn 12 mapc)).
  - reflexivity.
  - exact Hk.
  - intros k' v' Hin. apply contains_false.
    cbn in Hin.
    repeat (destruct Hin as [Hin | Hin];
            [injection Hin as <- <-; vm_compute; reflexivity |]).
    destruct Hin.
Defined.


Lemma img_only_after_download_witness :
  fst (extract_product url_a w_sample) = Ret (product_of url_a page_a) /\
  d_id (product_of url_a page_a) = Some (lit "MP-01") /\
  (exists ok w2 img,
      download_image (d_img_url (product_of url_a page_a)) (img_path (lit "MP-01"))
                     (snd (extract_product url_a w_sample)) = (Ret ok, w2) /\
      process_link [] url_a w_sample =
      (Ret [(lit "MP-01", rec_of (lit "MP-01") (product_of url_a page_a) img)], w2) /\
      (ok = false -> img = VNone)) /\
  fst (main 5 w_sample) = Ret tt /\
  exists out,
    json_output (snd (main 5 w_sample)) = Some out /\
    Forall (fun r =>
              field "img" r <> Some VNone ->
              exists pid c,
                field "id" r = Some (VStr pid) /\
                In (img_path pid, Bytes c) (files (snd (main 5 w_sample)))) out.
Proof.
  assert (He : fst (extract_product url_a w_sample) = Ret (product_of url_a page_a))
    by (vm_compute; reflexivity).
  assert (Hid : d_id (product_of url_a page_a) = Some (lit "MP-01"))
    by (vm_compute; reflexivity).
  assert (Hm : fst (main 5 w_sample) = Ret tt) by (vm_compute; reflexivity).
  destruct (@img_only_after_download ascii_lib) as (H1 & H2).
  split; [exact He |]. split; [exact Hid |]. split.
  - destruct (H1 [] url_a w_sample _ _ (lit "MP-01") (@run_eq _ _ _ _ He) Hid
                 eq_refl eq_refl) as (ok & w2 & img & Hd & Hp & Hko & _).
    exists ok, w2, img. auto.
  - split; [exact Hm |]. exact (H2 5%nat w_sample _ (@run_eq _ _ _ _ Hm)).
Defined.

Lemma download_image_never_raises_witness :
  download_image None (img_path (lit "MP-01")) w_sample = (Ret false, w_sample) /\
  exists w',
    download_image (Some (lit "https://www.marcosymarcos.mx/img/a.jpg"))
                   (img_path (lit "MP-01")) w_sample = (Ret false, w').
Proof.
  split.
  - destruct (download_image_never_raises None (img_path (lit "MP-01")) w_sample)
      as (ok & w' & Hd & Hf & _).
    destruct (Hf eq_refl) as [-> ->]. exact Hd.
  - destruct (download_image_never_raises
                (Some (lit "https://www.marcosymarcos.mx/img/a.jpg"))
                (img_path (lit "MP-01")) w_sample)
      as (ok & w' & Hd & _ & Hu).
    destruct (Hu _ eq_refl eq_refl) as (_ & Hno & _).
    rewrite (Hno eq_refl) in Hd. eauto.
Defined.

Lemma plata_metalico_scenario_witness :
  str_lower title_plata = lit "marco plata met" ++ [225%N] ++ lit "lico 5 cm" /\
  parse_width_cm (Some title_plata) = Some (5 # 1) /\
  guess_style_and_color (Some title_plata) = (lit "metal", lit "#c0c0c0").
Proof.
  assert (Hlow : str_lower title_plata
                 = lit "marco plata met" ++ [225%N] ++ lit "lico 5 cm")
    by reflexivity.
  split; [exact Hlow |].
  destruct (@plata_metalico_scenario ascii_lib Hlow) as (Hw & Hg & _).
  auto.
Defined.

Lemma output_keys_and_nulls_witness :
  fst (main 5 w_sample) = Ret tt /\
  exists out,
    json_output (snd (main 5 w_sample)) = Some out /\
    Forall (fun r =>
              map fst r = ["id"; "name"; "width_cm"; "color"; "style"; "img"]%string /\
              (exists s, field "id" r = Some (VStr s)) /\
              (exists s, field "name" r = Some (VStr s)) /\
              (exists s, field "color" r = Some (VStr s)) /\
              (exists s, field "style" r = Some (VStr s)) /\
              (field "width_cm" r = Some VNone \/
               exists x, field "width_cm" r = Some (VFloat x)) /\
              (field "img" r = Some VNone \/
               exists s, field "img" r = Some (VStr s))) out.
Proof.
  assert (Hm : fst (main 5 w_sample) = Ret tt) by (vm_compute; reflexivity).
  split; [exact Hm |].
  exact (proj1 output_keys_and_nulls ascii_lib 5%nat w_sample _
           (@run_eq _ _ _ _ Hm)).
Defined.

(** C3 as stated fails: the home page has no SKU and its URL has an empty
    last path segment, whose sanitized form is null, yet the identifier is
    PRODUCTO. *)
Lemma slug_default_producto :
  fst (extract_product BASE w_sample) = Ret (product_of BASE no_page) /\
  clean_id (sku_el no_page) = None /\
  last (split_char 47 (strip_char 47 (urlparse_path BASE))) [] = [] /\
  clean_id (Some (slug_as_specified BASE)) = None /\
  d_id (product_of BASE no_page) = Some (lit "PRODUCTO").
Proof. repeat split; vm_compute; reflexivity. Qed.

(** C9 as stated fails: the second record of the sample run, of a product
    whose title has no width, has a null [width_cm]. *)
Lemma width_cm_null_in_output :
  fst (main 5 w_sample) = Ret tt /\
  json_output (snd (main 5 w_sample)) = Some out_sample /\
  exists r,
    In r out_sample /\
    field "id" r = Some (VStr (lit "B_2")) /\
    field "width_cm" r = Some VNone.
Proof.
  destruct sample_run as [Hm Hout].
  split; [exact Hm |]. split; [exact Hout |].
  exists (nth 1 out_sample []).
  split; [right; left; reflexivity |].
  split; reflexivity.
Qed.

Lemma output_ids_sanitized_witness :
  fst (main 5 w_sample) = Ret tt /\
  exists out,
    json_output (snd (main 5 w_sample)) = Some out /\
    Forall (fun r =>
              exists pid,
                field "id" r = Some (VStr pid) /\ pid <> [] /\
                Forall (fun c => (65 <= c <= 90 \/ 48 <= c <= 57 \/
                                  c = 95 \/ c = 45)%N) pid) out.
Proof.
  assert (Hm : fst (main 5 w_sample) = Ret tt) by (vm_compute; reflexivity).
  split; [exact Hm |].
  destruct (@output_ids_sanitized ascii_lib) as [H _].
  exact (H 5%nat w_sample _ (@run_eq _ _ _ _ Hm)).
Defined.

(** ** More of the script at the sample sites *)

Lemma ascii_upper_id (s : pystr) : all id_char s -> str_upper s = s.
Proof.
  cbn [str_upper ascii_lib]. unfold ascii_upper.
  induction 1 as [|c s Hc _ IH]; cbn; [reflexivity |].
  rewrite IH. f_equal.
  apply id_char_spec in Hc. unfold in_range.
  destruct (97 <=? c)%N eqn:H1; [| reflexivity].
  destruct (c <=? 122)%N eqn:H2; [| reflexivity].
  apply N.leb_le in H1, H2. lia.
Qed.

Lemma ascii_upper_nonempty (s : pystr) : s <> [] -> str_upper s <> [].
Proof.
  cbn [str_upper ascii_lib]. unfold ascii_upper.
  destruct s; [congruence | discriminate].
Qed.

Lemma simple_urljoin_total (h : pystr) : urljoin BASE h <> [].
Proof.
  cbn [urljoin ascii_lib]. unfold simple_urljoin.
  destruct h as [|c h]; [discriminate |]. cbn [nonempty negb].
  destruct (startswith (lit "http") (c :: h)); discriminate.
Qed.

Lemma parse_width_cm_nonneg_witness :
  parse_width_cm (Some (lit "Perfil -5 cm")) = Some (5 # 1) /\ (0 <= 5 # 1)%Q.
Proof.
  assert (H : parse_width_cm (Some (lit "Perfil -5 cm")) = Some (5 # 1))
    by (vm_compute; reflexivity).
  split; [exact H |].
  exact (parse_width_cm_nonneg (Some (lit "Perfil -5 cm")) (5 # 1) H).
Defined.

Lemma parse_width_cm_skips_prefix_witness :
  Forall (fun c => isdecimal c = false) (lit "Marco Nogal ") /\
  parse_width_cm (Some (lit "Marco Nogal " ++ lit "3,5 cm"))
  = parse_width_cm (Some (lit "3,5 cm")).
Proof.
  assert (H : Forall (fun c => isdecimal c = false) (lit "Marco Nogal "))
    by (repeat constructor).
  split; [exact H |].
  exact (parse_width_cm_skips_prefix (lit "Marco Nogal ") (lit "3,5 cm") H).
Defined.

Lemma clean_id_idempotent_witness :
  (forall s, all id_char s -> str_upper s = s) /\
  clean_id (Some (lit " mp-01 ")) = Some (lit "MP-01") /\
  clean_id (Some (lit "MP-01")) = Some (lit "MP-01").
Proof.
  assert (H : clean_id (Some (lit " mp-01 ")) = Some (lit "MP-01"))
    by (vm_compute; reflexivity).
  split; [exact ascii_upper_id |]. split; [exact H |].
  exact (@clean_id_idempotent ascii_lib (Some (lit " mp-01 ")) (lit "MP-01")
           ascii_upper_id H).
Defined.

Lemma slug_from_url_shape_witness :
  (forall s, s <> [] -> str_upper s <> []) /\
  slug_from_url url_b <> [] /\ ~ In 45%N (slug_from_url url_b).
Proof.
  split; [exact ascii_upper_nonempty |].
  exact (@slug_from_url_shape ascii_lib url_b ascii_upper_nonempty).
Defined.

Lemma metallic_color_has_metal_style_witness :
  In (snd (guess_style_and_color (Some (lit "Marco Oro Viejo"))))
     [lit "#c0c0c0"; lit "#c7a446"; lit "#8c6b3f"] /\
  fst (guess_style_and_color (Some (lit "Marco Oro Viejo"))) = lit "metal".
Proof.
  assert (H : In (snd (guess_style_and_color (Some (lit "Marco Oro Viejo"))))
                 [lit "#c0c0c0"; lit "#c7a446"; lit "#8c6b3f"])
    by (right; left; vm_compute; reflexivity).
  split; [exact H |].
  exact (@metallic_color_has_metal_style ascii_lib (Some (lit "Marco Oro Viejo")) H).
Defined.



Lemma find_product_links_sorted_witness :
  fst (find_product_links 5 cat_url0 w_sample) = Ret [url_a; url_b; url_c] /\
  StronglySorted str_le [url_a; url_b; url_c] /\ NoDup [url_a; url_b; url_c].
Proof.
  assert (H : fst (find_product_links 5 cat_url0 w_sample)
              = Ret [url_a; url_b; url_c]) by (vm_compute; reflexivity).
  split; [exact H |].
  exact (@find_product_links_sorted ascii_lib 5%nat cat_url0 w_sample _ _
           (@run_eq _ _ _ _ H)).
Defined.


Lemma pagination_without_end_witness :
  (forall n u, exists soup c,
      endless_site n u = Response true soup c /\ next_link soup <> None) /\
  (forall h, urljoin BASE h <> []) /\
  fst (find_product_links 50 cat_url0 w_endless) = Timeout /\
  fst (main 50 w_endless) = Timeout.
Proof.
  assert (Hs : forall n u, exists soup c,
               endless_site n u = Response true soup c /\ next_link soup <> None)
    by (intros n u; exists loop_page, []; split; [reflexivity | discriminate]).
  split; [exact Hs |]. split; [exact simple_urljoin_total |].
  destruct (@pagination_without_end ascii_lib endless_site 50%nat w_endless
              Hs simple_urljoin_total eq_refl) as [H1 H2].
  split; [apply H1; discriminate | exact H2].
Defined.

Lemma listing_failure_aborts_witness :
  fst (find_product_links 5 cat_url0 w_dead) = Raise RequestException /\
  main 5 w_dead = (Raise RequestException, snd (find_product_links 5 cat_url0 w_dead)) /\
  files (snd (find_product_links 5 cat_url0 w_dead)) = files w_dead.
Proof.
  assert (H : fst (find_product_links 5 cat_url0 w_dead) = Raise RequestException)
    by (vm_compute; reflexivity).
  split; [exact H |].
  exact (@listing_failure_aborts ascii_lib 5%nat w_dead _ _ (@run_eq _ _ _ _ H)).
Defined.

Lemma empty_category_writes_empty_array_witness :
  fst (get_soup cat_url0 w_empty) = Ret no_page /\
  disk w_empty OUT_JSON = true /\
  exists w',
    main 1 w_empty = (Ret tt, w') /\
    json_output w' = Some [] /\
    files w' = (OUT_JSON, Json []) :: files w_empty.
Proof.
  assert (H : fst (get_soup cat_url0 w_empty) = Ret no_page)
    by (vm_compute; reflexivity).
  split; [exact H |]. split; [reflexivity |].
  exact (@empty_category_writes_empty_array ascii_lib 0%nat w_empty _ no_page
           (@run_eq _ _ _ _ H) eq_refl eq_refl eq_refl eq_refl).
Defined.

Lemma failed_product_is_skipped_witness :
  fst (get_soup (lit "https://www.marcosymarcos.mx/producto/zz/") w_sample)
  = Raise RequestException /\
  process_links [] [lit "https://www.marcosymarcos.mx/producto/zz/"; url_b] w_sample
  = process_links [] [url_b]
      (snd (get_soup (lit "https://www.marcosymarcos.mx/producto/zz/") w_sample)).
Proof.
  assert (H : fst (get_soup (lit "https://www.marcosymarcos.mx/producto/zz/") w_sample)
              = Raise RequestException) by (vm_compute; reflexivity).
  split; [exact H |].
  exact (proj1 (proj2 (@failed_product_is_skipped ascii_lib []
                         (lit "https://www.marcosymarcos.mx/producto/zz/") [url_b]
                         w_sample _ _ (@run_eq _ _ _ _ H)))).
Defined.

Lemma output_img_paths_witness :
  fst (main 5 w_sample) = Ret tt /\
  exists out,
    json_output (snd (main 5 w_sample)) = Some out /\
    Forall (fun r =>
              field "img" r = Some VNone \/
              exists pid,
                field "id" r = Some (VStr pid) /\
                field "img" r
                = Some (VStr (lit "img/molduras/" ++ pid ++ lit ".jpg"))) out.
Proof.
  assert (Hm : fst (main 5 w_sample) = Ret tt) by (vm_compute; reflexivity).
  split; [exact Hm |].
  exact (@output_img_paths ascii_lib 5%nat w_sample _ (@run_eq _ _ _ _ Hm)).
Defined.

Lemma main_writes_only_outputs_witness :
  fst (main 5 w_sample) = Ret tt /\
  exists out extra,
    files (snd (main 5 w_sample))
    = (OUT_JSON, Json out) :: extra ++ files w_sample /\
    Forall (fun f =>
              exists pid c,
                f = (img_path pid, Bytes c) /\
                In (Some (VStr pid)) (map (field "id") out)) extra.
Proof.
  assert (Hm : fst (main 5 w_sample) = Ret tt) by (vm_compute; reflexivity).
  split; [exact Hm |].
  exact (@main_writes_only_outputs ascii_lib 5%nat w_sample _ (@run_eq _ _ _ _ Hm)).
Defined.
